(** * examples/oldconfig.py: the oldconfig walk over a Kconfig menu tree

    A shallow embedding of [examples/oldconfig.py].  The script walks the
    menu tree of a loaded configuration and prompts for every symbol and
    choice that is visible, has a prompt and has no user value yet.

    The script talks to the console ([input], [print], [eprint]), to
    the builtin [int], and to the kconfiglib objects ([Symbol],
    [Choice], [MenuNode]).  The console
    is modelled by a [world]: the lines still to be read from standard
    input and the trace of what was written so far.  The kconfiglib
    objects are modelled by an interface ([Kconfiglib]) over an abstract
    state: attribute reads are queries on the state, [set_value] is a
    state transformer that also returns the boolean the script tests.
    The builtin [int] is a parameter too ([Builtins]). *)

From Stdlib Require Import List String Ascii ZArith Bool Lia DecimalString.
From Stdlib Require DecimalPos.
Import ListNotations.

Local Open Scope string_scope.

(** ** Data model *)

(** The symbol types the script compares [sym.type] against. *)
Inductive sym_type : Type :=
| UNKNOWN | BOOL | TRISTATE | STRING | INT | HEX.

Definition sym_type_eqb (a b : sym_type) : bool :=
  match a, b with
  | UNKNOWN, UNKNOWN | BOOL, BOOL | TRISTATE, TRISTATE
  | STRING, STRING | INT, INT | HEX, HEX => true
  | _, _ => false
  end.

(** Symbols and choices are Python objects compared with [is]; an object
    is represented by its identity. *)
Definition Symbol := nat.
Definition Choice := nat.

(** What the script hands to [set_value]: a tri-state level (after the
    [STR_TO_TRI] lookup, or the literal [2]) or a string. *)
Inductive value : Type :=
| VTri (t : Z)
| VStr (s : string).

(** [node.item]: a Symbol, a Choice, or something else (a menu, a comment). *)
Inductive Item : Type :=
| ItemSymbol (sym : Symbol)
| ItemChoice (choice : Choice)
| ItemOther.

(** What the script reads of the nodes in [sym.nodes]: the location and
    the text of the prompt ([prompt[0]]; [None] when the node has none). *)
Record NodeLoc : Type := mkLoc {
  loc_prompt : option string;
  loc_filename : string;
  loc_linenr : Z
}.

(** A menu node reference: [None], or a node with its item, prompt,
    location, first child ([node.list]) and next sibling ([node.next]). *)
Inductive MenuNode : Type :=
| NoNode
| Node (item : Item) (prompt : option string) (filename : string)
       (linenr : Z) (children next : MenuNode).

(** The kconfiglib objects as the script uses them. *)
Class Kconfiglib (St : Type) : Type := {
  sym_name : Symbol -> string;
  sym_nodes : Symbol -> list NodeLoc;
  sym_choice : Symbol -> option Choice;
  sym_type_of : St -> Symbol -> sym_type;
  sym_visibility : St -> Symbol -> Z;
  sym_user_value : St -> Symbol -> option value;
  sym_assignable : St -> Symbol -> list Z;
  sym_str_value : St -> Symbol -> string;
  sym_tri_value : St -> Symbol -> Z;
  sym_set_value : Symbol -> value -> St -> bool * St;
  choice_syms : Choice -> list Symbol;
  choice_visibility : St -> Choice -> Z;
  choice_tri_value : St -> Choice -> Z;
  choice_user_selection : St -> Choice -> option Symbol;
  choice_selection : St -> Choice -> option Symbol
}.

(** ** Console and exceptions *)

(** One entry of the console trace.  [EvInput] is a call of [input]: the
    prompt it writes; [who] records the item the prompt is for. *)
Inductive event : Type :=
| EvInput (who : Item) (prompt : string)
| EvPrint (line : string)
| EvEprint (line : string).

Record world (St : Type) : Type := mkWorld {
  kst : St;
  stdin : list string;
  trace : list event
}.
Arguments mkWorld {St} _ _ _.
Arguments kst {St} _.
Arguments stdin {St} _.
Arguments trace {St} _.

(** The exceptions the script can raise and does not catch. *)
Inductive exn : Type :=
| EOFError | AttributeError | IndexError | TypeError.

Inductive outcome (St : Type) : Type :=
| Done (w : world St)
| Raised (e : exn) (w : world St).
Arguments Done {St} _.
Arguments Raised {St} _ _.

Definition bind {St : Type} (o : outcome St) (k : world St -> outcome St)
  : outcome St :=
  match o with
  | Done w => k w
  | Raised e w => Raised e w
  end.

Notation "o ;; k" := (bind o k) (at level 61, right associativity).

Definition final {St : Type} (o : outcome St) : world St :=
  match o with
  | Done w => w
  | Raised _ w => w
  end.

(** ** Python built-ins used by the script *)

(** [not s] for a string. *)
Definition blank (s : string) : bool :=
  match s with
  | EmptyString => true
  | String _ _ => false
  end.

(** ["{}".format(n)] for an integer. *)
Definition str_of_int (n : Z) : string :=
  NilZero.string_of_int (Z.to_int n).

(** [val.startswith(("0x", "0X"))]. *)
Definition startswith_0x (val : string) : bool :=
  prefix "0x" val || prefix "0X" val.

(** [a.isspace()] for an ASCII character: tab to carriage return, the
    four separators 28 to 31, and the space. *)
Definition is_space (a : ascii) : bool :=
  let n := nat_of_ascii a in
  ((9 <=? n) && (n <=? 13) || (28 <=? n) && (n <=? 32))%nat.

(** The white space [int] drops around an ASCII numeral: tab to carriage
    return and the space; the separators 28 to 31 are not among it. *)
Definition int_space (a : ascii) : bool :=
  let n := nat_of_ascii a in
  ((9 <=? n) && (n <=? 13) || (n =? 32))%nat.

Fixpoint lstrip (s : string) : string :=
  match s with
  | EmptyString => EmptyString
  | String a r => if int_space a then lstrip r else s
  end.

Fixpoint rstrip (s : string) : string :=
  match s with
  | EmptyString => EmptyString
  | String a r =>
      match rstrip r with
      | EmptyString =>
          if int_space a then EmptyString else String a EmptyString
      | r' => String a r'
      end
  end.

Definition digit_val (a : ascii) : option Z :=
  let n := nat_of_ascii a in
  if ((48 <=? n) && (n <=? 57))%nat then Some (Z.of_nat (n - 48)) else None.

Fixpoint parse_digits (s : string) (acc : Z) (after_digit : bool) : option Z :=
  match s with
  | EmptyString => if after_digit then Some acc else None
  | String a r =>
      match digit_val a with
      | Some d => parse_digits r (10 * acc + d)%Z true
      | None =>
          if Ascii.eqb a "_" && after_digit then parse_digits r acc false
          else None
      end
  end.

(** [int(s)] on a line of ASCII characters, as Python 3 reads a decimal
    numeral: the white space around it is dropped, one sign is allowed,
    then decimal digits, with single underscores between digits.  [None]
    stands for [ValueError].  (No bound on the number of digits.) *)
Definition py_int (s : string) : option Z :=
  let t := rstrip (lstrip s) in
  match t with
  | String "+" r => parse_digits r 0%Z false
  | String "-" r => option_map Z.opp (parse_digits r 0%Z false)
  | _ => parse_digits t 0%Z false
  end.

(** The builtin [int] as the script calls it at line 246: from the text
    of a line to an integer, [None] for [ValueError].  What the builtin
    accepts is not the script's business and differs between the
    versions of Python the script supports (underscores, digits and
    white space outside ASCII, a limit on the number of digits): the
    script is modelled over any such function. *)
Class Builtins : Type := {
  int : string -> option Z
}.

(** Modelled from the spec: the table [STR_TO_TRI] is imported from
    kconfiglib, which is not among the sources; the spec gives it as the
    fixed case-sensitive table n -> 0, m -> 1, y -> 2. *)
Definition STR_TO_TRI (s : string) : option Z :=
  if String.eqb s "n" then Some 0%Z
  else if String.eqb s "m" then Some 1%Z
  else if String.eqb s "y" then Some 2%Z
  else None.

(** ** The script *)

Section Oldconfig.

Context {St : Type} `{B : Builtins} `{K : Kconfiglib St}.

(** [name_and_loc_str(sym)]. *)
Definition name_and_loc_str (sym : Symbol) : string :=
  sym_name sym ++ ", defined at " ++
  String.concat ", "
    (map (fun node => loc_filename node ++ ":" ++ str_of_int (loc_linenr node))
         (sym_nodes sym)).

(** [x in sym.assignable]. *)
Definition is_assignable (st : St) (sym : Symbol) (x : Z) : bool :=
  existsb (Z.eqb x) (sym_assignable st sym).

(** [sym.type in (BOOL, TRISTATE)]. *)
Definition is_bool_or_tristate (ty : sym_type) : bool :=
  sym_type_eqb ty BOOL || sym_type_eqb ty TRISTATE.

(** [default_value_str(sym)]. *)
Definition default_value_str (st : St) (sym : Symbol) : string :=
  if is_bool_or_tristate (sym_type_of st sym) then
    let res0 :=
      if is_assignable st sym 0
      then [if (sym_tri_value st sym =? 0)%Z then "N" else "n"] else [] in
    let res1 :=
      if is_assignable st sym 1
      then (res0 ++ [if (sym_tri_value st sym =? 1)%Z then "M" else "m"])%list
      else res0 in
    let res2 :=
      if is_assignable st sym 2
      then (res1 ++ [if (sym_tri_value st sym =? 2)%Z then "Y" else "y"])%list
      else res1 in
    String.concat "/" res2
  else sym_str_value st sym.

(** The argument of [input] in the symbol loop. *)
Definition symbol_prompt (text : string) (st : St) (sym : Symbol) : string :=
  text ++ " (" ++ name_and_loc_str sym ++ ") [" ++ default_value_str st sym
       ++ "] ".

(** Lines 189-193: the tri-state lookup.  [None] is the [continue] after
    "Invalid tristate value". *)
Definition tristate_lookup (ty : sym_type) (val : string) : option value :=
  if is_bool_or_tristate ty then
    match STR_TO_TRI val with
    | None => None
    | Some t => Some (VTri t)
    end
  else Some (VStr val).

(** Lines 198-199: the "0x" prefix for hex symbols.  The test
    [sym.type == HEX] comes first, so [startswith] is only ever called on
    a string: a symbol of type HEX did not go through the table. *)
Definition hex_prefix (ty : sym_type) (val : value) : value :=
  if sym_type_eqb ty HEX then
    match val with
    | VStr s => if startswith_0x s then VStr s else VStr ("0x" ++ s)
    | VTri t => VTri t
    end
  else val.

(** Lines 179-205: the loop over [input] for a symbol.  Every iteration
    reads one line; at the end of the input [input] raises [EOFError]. *)
Fixpoint symbol_loop (text : string) (sym : Symbol) (lines : list string)
  (st : St) (tr : list event) : outcome St :=
  let tr1 :=
    (tr ++ [EvInput (ItemSymbol sym) (symbol_prompt text st sym)])%list in
  match lines with
  | [] => Raised EOFError (mkWorld st [] tr1)
  | line :: rest =>
      let val := if blank line then sym_str_value st sym else line in
      match tristate_lookup (sym_type_of st sym) val with
      | None =>
          symbol_loop text sym rest st
            (tr1 ++ [EvEprint "Invalid tristate value"])%list
      | Some v =>
          let r := sym_set_value sym (hex_prefix (sym_type_of st sym) v) st in
          if fst r then Done (mkWorld (snd r) rest tr1)
          else symbol_loop text sym rest (snd r) tr1
      end
  end.

(** Line 217: [[sym for sym in choice.syms if sym.visibility == 2]]. *)
Definition choice_options (st : St) (choice : Choice) : list Symbol :=
  filter (fun sym => (sym_visibility st sym =? 2)%Z) (choice_syms choice).

(** [choice.selection is sym]. *)
Definition is_selection (st : St) (choice : Choice) (sym : Symbol) : bool :=
  match choice_selection st choice with
  | Some s => Nat.eqb s sym
  | None => false
  end.

Definition option_line (marker : string) (i : Z) (text name : string)
  : string :=
  marker ++ " " ++ str_of_int i ++ ". " ++ text ++ " (" ++ name ++ ")".

(** Lines 229-236: one printed line per option, numbered from [i].
    [sym.nodes[0]] raises [IndexError] on an empty list, and
    [.prompt[0]] raises [TypeError] when the prompt is [None]; the lines
    printed before that stay printed. *)
Fixpoint print_options (st : St) (choice : Choice) (options : list Symbol)
  (i : Z) (tr : list event) : option exn * list event :=
  match options with
  | [] => (None, tr)
  | sym :: more =>
      match sym_nodes sym with
      | [] => (Some IndexError, tr)
      | node0 :: _ =>
          match loc_prompt node0 with
          | None => (Some TypeError, tr)
          | Some text =>
              print_options st choice more (i + 1)%Z
                (tr ++ [EvPrint (option_line
                                   (if is_selection st choice sym
                                    then ">" else " ")
                                   i text (sym_name sym))])%list
          end
      end
  end.

Definition choice_header (text filename : string) (linenr : Z) : string :=
  text ++ " (defined at " ++ filename ++ ":" ++ str_of_int linenr ++ ")".

Definition choice_prompt (options : list Symbol) : string :=
  "choice[1-" ++ str_of_int (Z.of_nat (List.length options)) ++ "]: ".

(** Lines 225-257: the selection loop of a choice. *)
Fixpoint choice_loop (text filename : string) (linenr : Z) (choice : Choice)
  (options : list Symbol) (lines : list string) (st : St) (tr : list event)
  : outcome St :=
  let tr1 := (tr ++ [EvPrint (choice_header text filename linenr)])%list in
  match print_options st choice options 1%Z tr1 with
  | (Some e, tr2) => Raised e (mkWorld st lines tr2)
  | (None, tr2) =>
      let tr3 :=
        (tr2 ++ [EvInput (ItemChoice choice) (choice_prompt options)])%list in
      match lines with
      | [] => Raised EOFError (mkWorld st [] tr3)
      | sel_index :: rest =>
          if blank sel_index then
            match choice_selection st choice with
            | None => Raised AttributeError (mkWorld st rest tr3)
            | Some sym =>
                Done (mkWorld (snd (sym_set_value sym (VTri 2) st)) rest tr3)
            end
          else
            match int sel_index with
            | None =>
                choice_loop text filename linenr choice options rest st
                  (tr3 ++ [EvEprint "Bad index"])%list
            | Some i =>
                if (1 <=? i)%Z && (i <=? Z.of_nat (List.length options))%Z then
                  match nth_error options (Z.to_nat (i - 1)) with
                  | Some sym =>
                      Done (mkWorld (snd (sym_set_value sym (VTri 2) st))
                                    rest tr3)
                  | None => Raised IndexError (mkWorld st rest tr3)
                  end
                else
                  choice_loop text filename linenr choice options rest st
                    (tr3 ++ [EvEprint "Bad index"])%list
            end
      end
  end.

(** [node.item.visibility]. *)
Definition item_visibility (st : St) (item : Item) : Z :=
  match item with
  | ItemSymbol sym => sym_visibility st sym
  | ItemChoice choice => choice_visibility st choice
  | ItemOther => 0%Z
  end.

(** [sym.choice and sym.choice.tri_value == 2]. *)
Definition in_y_mode_choice (st : St) (sym : Symbol) : bool :=
  match sym_choice sym with
  | Some choice => (choice_tri_value st choice =? 2)%Z
  | None => false
  end.

(** [choice.user_selection and choice.user_selection.visibility == 2]. *)
Definition has_visible_user_selection (st : St) (choice : Choice) : bool :=
  match choice_user_selection st choice with
  | Some sym => (sym_visibility st sym =? 2)%Z
  | None => false
  end.

(** [do_oldconfig_for_node(node)].  The function is only ever called on
    a node; on [None] the first attribute read raises. *)
Definition do_oldconfig_for_node (node : MenuNode) (w : world St)
  : outcome St :=
  match node with
  | NoNode => Raised AttributeError w
  | Node ItemOther _ _ _ _ _ => Done w
  | Node item prompt filename linenr _ _ =>
      if (item_visibility (kst w) item =? 0)%Z then Done w
      else
        match prompt with
        | None => Done w
        | Some text =>
            match item with
            | ItemSymbol sym =>
                match sym_user_value (kst w) sym with
                | Some _ => Done w
                | None =>
                    if (List.length (sym_assignable (kst w) sym) =? 1)%nat
                    then Done w
                    else if in_y_mode_choice (kst w) sym then Done w
                    else symbol_loop text sym (stdin w) (kst w) (trace w)
                end
            | ItemChoice choice =>
                if has_visible_user_selection (kst w) choice then Done w
                else
                  match choice_options (kst w) choice with
                  | [] => Done w
                  | options =>
                      choice_loop text filename linenr choice options
                        (stdin w) (kst w) (trace w)
                  end
            | ItemOther => Done w
            end
        end
  end.

(** [do_oldconfig(node)]: the [while] loop follows [node.next], the
    recursive call takes [node.list]. *)
Fixpoint do_oldconfig (node : MenuNode) (w : world St) : outcome St :=
  match node with
  | NoNode => Done w
  | Node _ _ _ _ children next =>
      do_oldconfig_for_node node w ;; fun w1 =>
      match children with
      | NoNode => Done w1
      | Node _ _ _ _ _ _ => do_oldconfig children w1
      end ;; fun w2 =>
      do_oldconfig next w2
  end.

End Oldconfig.

(** ** Running the script *)

(** To run the script on the lines of an example, [int] is [py_int]. *)
#[export] Instance ascii_builtins : Builtins := {| int := py_int |}.

(** ** A table-driven configuration *)

(** Modelled from the spec: the configuration model (the kconfiglib
    module, which is not among the sources).  To run the script on
    concrete menus, [Tab] gives a small instance of the interface: the
    declarations are tables (type, locations, visibility, assignable
    set, default of every symbol; visibility, mode and default of every
    choice), the only state is the user values and the user selections. *)
Module Tab.

Record SymDecl : Type := mkSym {
  d_name : string;
  d_type : sym_type;
  d_nodes : list NodeLoc;
  d_choice : option Choice;
  d_visibility : Z;
  d_assignable : list Z;
  d_default : string
}.

Record ChoiceDecl : Type := mkChoice {
  c_visibility : Z;
  c_tri_value : Z;
  c_default : option Symbol
}.

(** A symbol (a choice) is its position in the table. *)
Record Kconf : Type := mkKconf {
  symbols : list SymDecl;
  choices : list ChoiceDecl
}.

Record KState : Type := mkState {
  user_values : list (Symbol * value);
  user_selections : list (Choice * Symbol)
}.

Definition no_sym : SymDecl := mkSym "" UNKNOWN [] None 0 [] "".
Definition no_choice : ChoiceDecl := mkChoice 0 0 None.

Definition decl (k : Kconf) (sym : Symbol) : SymDecl :=
  nth sym (symbols k) no_sym.

Definition cdecl (k : Kconf) (choice : Choice) : ChoiceDecl :=
  nth choice (choices k) no_choice.

Fixpoint lookup {A : Type} (key : nat) (l : list (nat * A)) : option A :=
  match l with
  | [] => None
  | (k, a) :: rest => if Nat.eqb k key then Some a else lookup key rest
  end.

Definition update {A : Type} (key : nat) (a : A) (l : list (nat * A))
  : list (nat * A) :=
  (key, a) :: filter (fun p => negb (Nat.eqb (fst p) key)) l.

(** Modelled from the spec: a symbol is a member of at most one choice,
    the one its declaration names. *)
Definition member (k : Kconf) (choice : Choice) (sym : Symbol) : bool :=
  match d_choice (decl k sym) with
  | Some c => Nat.eqb c choice
  | None => false
  end.

(** [int(s, 16)]: as [py_int], with hexadecimal digits and an optional
    "0x" or "0X" after the sign. *)
Definition hex_digit_val (a : ascii) : option Z :=
  let n := nat_of_ascii a in
  if ((48 <=? n) && (n <=? 57))%nat then Some (Z.of_nat (n - 48))
  else if ((65 <=? n) && (n <=? 70))%nat then Some (Z.of_nat (n - 55))
  else if ((97 <=? n) && (n <=? 102))%nat then Some (Z.of_nat (n - 87))
  else None.

Fixpoint parse_hex_digits (s : string) (acc : Z) (after_digit : bool)
  : option Z :=
  match s with
  | EmptyString => if after_digit then Some acc else None
  | String a r =>
      match hex_digit_val a with
      | Some d => parse_hex_digits r (16 * acc + d)%Z true
      | None =>
          if Ascii.eqb a "_" && after_digit then parse_hex_digits r acc false
          else None
      end
  end.

Definition parse_hex_body (s : string) : option Z :=
  if startswith_0x s then
    match s with
    | String _ (String _ (String "_" r)) => parse_hex_digits r 0%Z false
    | String _ (String _ r) => parse_hex_digits r 0%Z false
    | _ => None
    end
  else parse_hex_digits s 0%Z false.

Definition py_int16 (s : string) : option Z :=
  let t := rstrip (lstrip s) in
  match t with
  | String "+" r => parse_hex_body r
  | String "-" r => option_map Z.opp (parse_hex_body r)
  | _ => parse_hex_body t
  end.

Definition tri_to_str (t : Z) : string :=
  if (t =? 0)%Z then "n" else if (t =? 1)%Z then "m" else "y".

Definition value_str (v : value) : string :=
  match v with
  | VTri t => tri_to_str t
  | VStr s => s
  end.

(** Modelled from the spec: the validating setter of the configuration
    model ([Symbol.set_value] of kconfiglib, not among the sources)
    accepts a candidate exactly when it is valid for the declared type:
    a level 0 or 2 for a boolean, a level 0, 1 or 2 for a tri-state, any
    string for a string, a decimal numeral for an integer, a
    non-negative hexadecimal numeral for a hexadecimal. *)
Definition valid_for (ty : sym_type) (v : value) : bool :=
  match ty, v with
  | BOOL, VTri t => (t =? 0)%Z || (t =? 2)%Z
  | TRISTATE, VTri t => (t =? 0)%Z || (t =? 1)%Z || (t =? 2)%Z
  | STRING, VStr _ => true
  | INT, VStr s => match py_int s with Some _ => true | None => false end
  | HEX, VStr s =>
      match py_int16 s with Some n => (0 <=? n)%Z | None => false end
  | _, _ => false
  end.

(** Modelled from the spec: on acceptance the setter records the user
    value, and a member of a choice set to the top level becomes the
    user selection of its choice; on rejection nothing changes. *)
Definition set_value (k : Kconf) (sym : Symbol) (v : value) (st : KState)
  : bool * KState :=
  if valid_for (d_type (decl k sym)) v then
    (true,
     mkState (update sym v (user_values st))
       (match d_choice (decl k sym), v with
        | Some c, VTri 2 => update c sym (user_selections st)
        | _, _ => user_selections st
        end))
  else (false, st).

(** Modelled from the spec: the user-made selection of a choice is
    absent until a member has been set to the top level. *)
Definition user_selection (k : Kconf) (st : KState) (choice : Choice)
  : option Symbol :=
  match lookup choice (user_selections st) with
  | Some sym => if member k choice sym then Some sym else None
  | None => None
  end.

(** Modelled from the spec: the members of a choice, in the order of
    their declarations. *)
Definition syms_of (k : Kconf) (choice : Choice) : list Symbol :=
  filter (member k choice) (seq 0 (List.length (symbols k))).

(** Modelled from the spec: the selection a choice derives when the
    user has made none: the declared default, and for a choice that
    declares none the first member that is fully visible. *)
Definition derived_selection (k : Kconf) (choice : Choice)
  : option Symbol :=
  match c_default (cdecl k choice) with
  | Some sym => Some sym
  | None =>
      hd_error
        (filter (fun sym => (d_visibility (decl k sym) =? 2)%Z)
                (syms_of k choice))
  end.

(** Modelled from the spec: the current selection of a choice is the
    user selection when that one is fully visible, and the derived one
    otherwise. *)
Definition selection (k : Kconf) (st : KState) (choice : Choice)
  : option Symbol :=
  match user_selection k st choice with
  | Some sym =>
      if (d_visibility (decl k sym) =? 2)%Z then Some sym
      else derived_selection k choice
  | None => derived_selection k choice
  end.

(** Modelled from the spec: the current textual value is the user value
    when there is one and the declared default otherwise; a member of a
    choice reads "y" when it is the selection and "n" when not. *)
Definition str_value (k : Kconf) (st : KState) (sym : Symbol) : string :=
  match d_choice (decl k sym) with
  | Some c =>
      match selection k st c with
      | Some s => if Nat.eqb s sym then "y" else "n"
      | None => "n"
      end
  | None =>
      match lookup sym (user_values st) with
      | Some v => value_str v
      | None => d_default (decl k sym)
      end
  end.

(** Modelled from the spec: the tri-state level of the current value. *)
Definition tri_value (k : Kconf) (st : KState) (sym : Symbol) : Z :=
  match STR_TO_TRI (str_value k st sym) with
  | Some t => t
  | None => 0%Z
  end.

(** Modelled from the spec: the queries and the setter of the
    configuration model, read off the tables and the state. *)
#[export] Instance model (k : Kconf) : Kconfiglib KState := {
  sym_name := fun sym => d_name (decl k sym);
  sym_nodes := fun sym => d_nodes (decl k sym);
  sym_choice := fun sym => d_choice (decl k sym);
  sym_type_of := fun _ sym => d_type (decl k sym);
  sym_visibility := fun _ sym => d_visibility (decl k sym);
  sym_user_value := fun st sym => lookup sym (user_values st);
  sym_assignable := fun _ sym => d_assignable (decl k sym);
  sym_str_value := str_value k;
  sym_tri_value := tri_value k;
  sym_set_value := set_value k;
  choice_syms := syms_of k;
  choice_visibility := fun _ choice => c_visibility (cdecl k choice);
  choice_tri_value := fun _ choice => c_tri_value (cdecl k choice);
  choice_user_selection := user_selection k;
  choice_selection := selection k
}.

(** Modelled from the spec: loading a saved configuration (kconfiglib's
    [load_config], not among the sources) populates the user values of
    the items present in the file and leaves the others unset.  An entry
    is a name with the literal saved for it; the literal goes to the
    validating setter as it is written (a tri-state letter as its
    level). *)
Fixpoint find_sym (name : string) (decls : list SymDecl) (i : nat)
  : option Symbol :=
  match decls with
  | [] => None
  | d :: rest =>
      if String.eqb (d_name d) name then Some i else find_sym name rest (S i)
  end.

Definition load_assignment (k : Kconf) (entry : string * string)
  (st : KState) : KState :=
  match find_sym (fst entry) (symbols k) 0 with
  | None => st
  | Some sym =>
      if is_bool_or_tristate (d_type (decl k sym)) then
        match STR_TO_TRI (snd entry) with
        | Some t => snd (set_value k sym (VTri t) st)
        | None => st
        end
      else snd (set_value k sym (VStr (snd entry)) st)
  end.

Definition load_config (k : Kconf) (entries : list (string * string))
  (st : KState) : KState :=
  fold_left (fun st entry => load_assignment k entry st) entries st.

End Tab.

(** ** The sample session of the script's header *)

Module Sample.
Import Tab.

Definition at_line (text : option string) (linenr : Z) : NodeLoc :=
  mkLoc text "Kconfig" linenr.

(** The header's [OldconfigExample]: MODULES, five prompted symbols and
    a choice of three. *)
Definition kconf : Kconf :=
  mkKconf
    [ mkSym "MODULES" BOOL [at_line None 1] None 0 [] "y";
      mkSym "BOOL_SYM" BOOL [at_line (Some "BOOL_SYM prompt") 5]
            None 2 [0; 2]%Z "y";
      mkSym "TRISTATE_SYM" TRISTATE [at_line (Some "TRISTATE_SYM prompt") 9]
            None 2 [0; 1; 2]%Z "m";
      mkSym "STRING_SYM" STRING [at_line (Some "STRING_SYM prompt") 13]
            None 2 [] "foo";
      mkSym "INT_SYM" INT [at_line (Some "INT_SYM prompt") 17] None 2 [] "";
      mkSym "HEX_SYM" HEX [at_line (Some "HEX_SYM prompt") 20] None 2 [] "";
      mkSym "CHOICE_A" BOOL [at_line (Some "CHOICE_A's prompt") 27]
            (Some 0%nat) 2 [2]%Z "n";
      mkSym "CHOICE_B" BOOL [at_line (Some "CHOICE_B's prompt") 30]
            (Some 0%nat) 2 [2]%Z "n";
      mkSym "CHOICE_C" BOOL [at_line (Some "CHOICE_C's prompt") 33]
            (Some 0%nat) 2 [2]%Z "n" ]
    [ mkChoice 2 2 (Some 7%nat) ].

Definition sym_node (sym : Symbol) (next : MenuNode) : MenuNode :=
  match d_nodes (decl kconf sym) with
  | n :: _ =>
      Node (ItemSymbol sym) (loc_prompt n) (loc_filename n) (loc_linenr n)
           NoNode next
  | [] => next
  end.

Definition choice_node : MenuNode :=
  Node (ItemChoice 0%nat) (Some "A choice that defaults to CHOICE_B")
       "Kconfig" 23
       (sym_node 6 (sym_node 7 (sym_node 8 NoNode)))
       NoNode.

(** [kconf.top_node]: the top menu, with the items as its children. *)
Definition top_node : MenuNode :=
  Node ItemOther (Some "Main menu") "Kconfig" 1
       (sym_node 0 (sym_node 1 (sym_node 2 (sym_node 3 (sym_node 4
          (sym_node 5 choice_node))))))
       NoNode.

(** The state after loading an empty [.config]. *)
Definition empty : KState := mkState [] [].

Definition run (lines : list string) : outcome KState :=
  do_oldconfig (K := model kconf) top_node (mkWorld empty lines []).

Definition session_input : list string :=
  ["foo"; "n"; ""; "bar"; "0x123"; "123"; "0x123"; "5"; "3"].

(** The node of a symbol of [kconf], alone. *)
Definition node_of (sym : Symbol) : MenuNode := sym_node sym NoNode.

(** A second definition location of the choice that has no prompt of
    its own. *)
Definition promptless_choice_node : MenuNode :=
  Node (ItemChoice 0%nat) None "Kconfig" 40 NoNode NoNode.


(** The state after loading a [.config] that has every prompted symbol
    set and CHOICE_A selected. *)
Definition saved_choice_a : KState :=
  mkState
    [ (1%nat, VTri 2); (2%nat, VTri 1); (3%nat, VStr "foo");
      (4%nat, VStr "1"); (5%nat, VStr "0x1"); (6%nat, VTri 2) ]
    [ (0%nat, 6%nat) ].


(** Prompting for one node, and walking a tree, of a table [k]. *)
Definition prompt_node (k : Kconf) (node : MenuNode) (st : KState)
  (lines : list string) : outcome KState :=
  do_oldconfig_for_node (K := model k) node (mkWorld st lines []).


End Sample.

(** ** The properties, in the words of the specification *)

Section Specification.

Context {St : Type} `{B : Builtins} `{K : Kconfiglib St}.

(** The six skip conditions of the item prompter, numbered as in the
    specification. *)
Definition skip_condition (n : nat) (st : St) (item : Item)
  (prompt : option string) : Prop :=
  match n with
  | 1 => (forall sym, item <> ItemSymbol sym) /\
         (forall choice, item <> ItemChoice choice)
  | 2 => item_visibility st item = 0%Z
  | 3 => prompt = None
  | 4 => exists sym, item = ItemSymbol sym /\ sym_user_value st sym <> None
  | 5 => exists sym, item = ItemSymbol sym /\
                     List.length (sym_assignable st sym) = 1%nat
  | 6 => exists sym choice, item = ItemSymbol sym /\
           sym_choice sym = Some choice /\
           choice_tri_value st choice = 2%Z
  | _ => False
  end.

(** The order of the tree walker: a node, then its children, then its
    following siblings. *)
Fixpoint preorder (node : MenuNode) : list MenuNode :=
  match node with
  | NoNode => []
  | Node _ _ _ _ children next =>
      (node :: preorder children ++ preorder next)%list
  end.

(** Prompting the nodes of a list one after the other. *)
Fixpoint visit_all (nodes : list MenuNode) (w : world St) : outcome St :=
  match nodes with
  | [] => Done w
  | node :: rest => do_oldconfig_for_node node w ;; visit_all rest
  end.

Definition item_eqb (a b : Item) : bool :=
  match a, b with
  | ItemSymbol x, ItemSymbol y => Nat.eqb x y
  | ItemChoice x, ItemChoice y => Nat.eqb x y
  | ItemOther, ItemOther => true
  | _, _ => false
  end.

(** The number of prompts ([input] calls) made for an item. *)
Definition prompts_for (item : Item) (tr : list event) : nat :=
  List.length
    (filter (fun e => match e with
                      | EvInput who _ => item_eqb who item
                      | _ => false
                      end) tr).

(** The first defining node of a symbol exists and carries a prompt. *)
Definition has_first_prompt (sym : Symbol) : Prop :=
  exists node0 more text,
    sym_nodes sym = node0 :: more /\ loc_prompt node0 = Some text.

(** The lines the choice prompter presents for a list of options: one
    per option, in order, numbered from 1, with the prompt text of the
    option's first defining node and a marker on the current selection. *)
Definition first_prompt_text (sym : Symbol) : string :=
  match sym_nodes sym with
  | node0 :: _ =>
      match loc_prompt node0 with
      | Some text => text
      | None => ""
      end
  | [] => ""
  end.

Definition presented_from (first : nat) (st : St) (choice : Choice)
  (options : list Symbol) : list event :=
  map (fun numbered =>
         EvPrint (option_line
                    (if is_selection st choice (snd numbered)
                     then ">" else " ")
                    (Z.of_nat (fst numbered))
                    (first_prompt_text (snd numbered))
                    (sym_name (snd numbered))))
      (combine (seq first (List.length options)) options).

Definition presented (st : St) (choice : Choice) (options : list Symbol)
  : list event :=
  presented_from 1 st choice options.

(** What the theorems below ask of the configuration model. *)

(** The setter accepts every level of the assignable set. *)
Definition accepts_assignable : Prop :=
  forall st sym t,
    In t (sym_assignable st sym) ->
    fst (sym_set_value sym (VTri t) st) = true.

(** An accepted value is the user value afterwards. *)
Definition records_user_value : Prop :=
  forall st sym v,
    fst (sym_set_value sym v st) = true ->
    sym_user_value (snd (sym_set_value sym v st)) sym = Some v.


(** The setter changes the user value of its own symbol only. *)
Definition frames_user_values : Prop :=
  forall st sym v other,
    other <> sym ->
    sym_user_value (snd (sym_set_value sym v st)) other =
    sym_user_value st other.

(** The members and the selection of a choice know their choice. *)
Definition members_know_choice : Prop :=
  (forall choice sym, In sym (choice_syms choice) -> sym_choice sym <> None)
  /\
  (forall st choice sym,
      choice_selection st choice = Some sym -> sym_choice sym <> None).

(** A choice with a selectable option has a current selection. *)
Definition selection_present : Prop :=
  forall st choice,
    choice_options st choice <> [] -> choice_selection st choice <> None.

(** Every selectable option can be displayed. *)
Definition options_have_prompts : Prop :=
  forall st choice sym,
    In sym (choice_options st choice) -> has_first_prompt sym.

End Specification.

(** ** The main block *)

(** What the main block uses besides the objects above:
    [os.path.exists], the constructor [Kconfig(filename)] with the
    [top_node] of the new object, [load_config] and [write_config].
    They belong to the process and to kconfiglib and are parameters
    here; [None] (for [write_config]: [false]) stands for a call that
    raises. *)
Class Host (St : Type) : Type := {
  path_exists : string -> bool;
  Kconfig_new : string -> option (St * MenuNode);
  load_config : string -> St -> option St;
  write_config : string -> St -> bool
}.

(** How a run of the script ends: [sys.exit(status)], an exception out
    of a kconfiglib call, an exception out of the walk, or the end of the
    block after [write_config] was given the state [saved]. *)
Inductive main_result (St : Type) : Type :=
| SysExit (status : Z) (tr : list event)
| LibraryRaised (tr : list event)
| WalkRaised (e : exn) (w : world St)
| Written (filename : string) (saved : St) (w : world St).
Arguments SysExit {St} _ _.
Arguments LibraryRaised {St} _.
Arguments WalkRaised {St} _ _.
Arguments Written {St} _ _ _.

(** Lines 268-283, run with [sys.argv = argv] and the lines of standard
    input. *)
Definition main {St : Type} `{B : Builtins} `{K : Kconfiglib St}
  `{H : Host St}
  (argv : list string) (lines : list string) : main_result St :=
  if negb (List.length argv =? 2)%nat then
    SysExit 1 [EvEprint "error: pass name of base Kconfig file as argument"]
  else if negb (path_exists ".config") then
    SysExit 1 [EvEprint "error: no existing .config"]
  else
    match Kconfig_new (nth 1 argv "") with
    | None => LibraryRaised []
    | Some (st0, top_node) =>
        match load_config ".config" st0 with
        | None => LibraryRaised []
        | Some st1 =>
            match do_oldconfig top_node (mkWorld st1 lines []) with
            | Raised e w => WalkRaised e w
            | Done w =>
                if write_config ".config" (kst w) then
                  Written ".config" (kst w)
                    (mkWorld (kst w) (stdin w)
                       (trace w ++
                        [EvPrint "Configuration written to .config"])%list)
                else LibraryRaised (trace w)
            end
        end
    end.

(** The runs of the header: [python oldconfig.py Kconfig] in a directory
    whose [.config] holds the [entries]. *)
Module SampleRun.

(** Modelled from the spec: the process and kconfiglib for the header's
    sample; the constructor gives the sample tree with nothing set, and
    [load_config] reads the entries of the [.config]. *)
Definition host (entries : list (string * string)) : Host Tab.KState := {|
  path_exists := fun _ => true;
  Kconfig_new := fun _ => Some (Sample.empty, Sample.top_node);
  load_config := fun _ st => Some (Tab.load_config Sample.kconf entries st);
  write_config := fun _ _ => true
|}.

Definition run (entries : list (string * string)) (lines : list string)
  : main_result Tab.KState :=
  main (K := Tab.model Sample.kconf) (H := host entries)
    ["oldconfig.py"; "Kconfig"] lines.

(** The [.config] the header shows after the session. *)
Definition written_config : list (string * string) :=
  [ ("MODULES", "y"); ("BOOL_SYM", "n"); ("TRISTATE_SYM", "m");
    ("STRING_SYM", "bar"); ("INT_SYM", "123"); ("HEX_SYM", "0x123");
    ("CHOICE_A", "n"); ("CHOICE_B", "n"); ("CHOICE_C", "y") ].

End SampleRun.

(** ** Further properties, in words *)

Section MoreSpecification.

Context {St : Type} `{B : Builtins} `{K : Kconfiglib St}.

(** A node at which the prompter has nothing to do: one of the six skip
    conditions holds, or the node is a choice with a user selection of
    visibility 2 or without a member of visibility 2. *)
Definition skippable (st : St) (node : MenuNode) : Prop :=
  match node with
  | NoNode => False
  | Node item prompt _ _ _ _ =>
      (exists n, skip_condition n st item prompt) \/
      (exists choice,
          item = ItemChoice choice /\
          (has_visible_user_selection st choice = true \/
           choice_options st choice = []))
  end.

(** The number of [input] calls in a trace, and of reports of a text. *)
Definition input_count (tr : list event) : nat :=
  List.length
    (filter (fun e => match e with EvInput _ _ => true | _ => false end) tr).

Definition report_count (text : string) (tr : list event) : nat :=
  List.length
    (filter (fun e => match e with
                      | EvEprint line => String.eqb line text
                      | _ => false
                      end) tr).

(** What a line at the prompt of a symbol becomes on its way to the
    setter ([None]: the line is not in the tri-state table), and whether
    the setter takes it. *)
Definition symbol_candidate (st : St) (sym : Symbol) (line : string)
  : option value :=
  option_map (hex_prefix (sym_type_of st sym))
    (tristate_lookup (sym_type_of st sym)
       (if blank line then sym_str_value st sym else line)).

Definition symbol_accepts (st : St) (sym : Symbol) (line : string) : bool :=
  match symbol_candidate st sym line with
  | Some v => fst (sym_set_value sym v st)
  | None => false
  end.

(** A setter that leaves the state alone when it rejects. *)
Definition rejection_is_silent : Prop :=
  forall st sym v,
    fst (sym_set_value sym v st) = false ->
    snd (sym_set_value sym v st) = st.

(** A line the choice loop answers with "Bad index". *)
Definition bad_index (options : list Symbol) (line : string) : bool :=
  negb (blank line) &&
  match int line with
  | None => true
  | Some i => negb ((1 <=? i)%Z && (i <=? Z.of_nat (List.length options))%Z)
  end.

End MoreSpecification.

(** The prompt that was written when [input] met the end of the input. *)
Definition eof_prompt {St : Type} (o : outcome St) : nat :=
  match o with
  | Raised EOFError _ => 1
  | _ => 0
  end.

(** The bookkeeping of a run from the world [w] to the outcome [o]: the
    lines left are a suffix of the lines there were, and every line read
    was asked for by one prompt. *)
Definition accounted {St : Type} (w : world St) (o : outcome St) : Prop :=
  exists used,
    stdin w = (used ++ stdin (final o))%list /\
    input_count (trace (final o)) =
    (input_count (trace w) + List.length used + eof_prompt o)%nat.

(** A non-empty line of white space only. *)
Fixpoint all_space (s : string) : bool :=
  match s with
  | EmptyString => true
  | String a r => is_space a && all_space r
  end.

(** The value of a decimal numeral read from the left, starting from
    [acc]. *)
Fixpoint digits_value (d : Decimal.uint) (acc : Z) : Z :=
  match d with
  | Decimal.Nil => acc
  | Decimal.D0 r => digits_value r (10 * acc)
  | Decimal.D1 r => digits_value r (10 * acc + 1)
  | Decimal.D2 r => digits_value r (10 * acc + 2)
  | Decimal.D3 r => digits_value r (10 * acc + 3)
  | Decimal.D4 r => digits_value r (10 * acc + 4)
  | Decimal.D5 r => digits_value r (10 * acc + 5)
  | Decimal.D6 r => digits_value r (10 * acc + 6)
  | Decimal.D7 r => digits_value r (10 * acc + 7)
  | Decimal.D8 r => digits_value r (10 * acc + 8)
  | Decimal.D9 r => digits_value r (10 * acc + 9)
  end%Z.

(** The letter of a level in the hint of a boolean or tri-state symbol:
    a capital for the current level. *)
Definition hint_letter (current level : Z) : string :=
  if (level =? 0)%Z then (if (current =? 0)%Z then "N" else "n")
  else if (level =? 1)%Z then (if (current =? 1)%Z then "M" else "m")
  else (if (current =? 2)%Z then "Y" else "y").

(** The number of capital letters of a string. *)
Fixpoint capitals (s : string) : nat :=
  match s with
  | EmptyString => 0
  | String a r =>
      ((if ((65 <=? nat_of_ascii a) && (nat_of_ascii a <=? 90))%nat
        then 1 else 0) + capitals r)%nat
  end.

(** ** Theorems *)

Section Claims.

Context {St : Type} `{B : Builtins} `{K : Kconfiglib St}.

(** *** The tree walker *)

Lemma visit_all_app (front back : list MenuNode) (w : world St) :
  visit_all (front ++ back) w = (visit_all front w ;; visit_all back).
Proof.
  revert w.
  induction front as [|node front IH]; intros w; simpl.
  - reflexivity.
  - destruct (do_oldconfig_for_node node w) as [w1|e w1]; simpl.
    + apply IH.
    + reflexivity.
Qed.

Lemma preorder_nodes (node n : MenuNode) :
  In n (preorder node) -> n <> NoNode.
Proof.
  induction node as [|item prompt filename linenr children IHc next IHn];
    simpl; intros Hin.
  - contradiction.
  - destruct Hin as [<-|Hin]; [discriminate|].
    apply in_app_or in Hin.
    destruct Hin; auto.
Qed.

(** C5: [do_oldconfig], started on the first node of a sibling chain,
    prompts exactly the nodes of the chain and of their child chains, in
    the order node, children, following siblings; on the null reference
    it returns at once, and every visited node is a real node. *)
Theorem do_oldconfig_visits_in_preorder (node : MenuNode) (w : world St) :
  do_oldconfig node w = visit_all (preorder node) w /\
  do_oldconfig NoNode w = Done w /\
  (forall n, In n (preorder node) -> n <> NoNode).
Proof.
  split; [|split; [reflexivity|apply preorder_nodes]].
  revert w.
  induction node as [|item prompt filename linenr children IHc next IHn];
    intros w.
  - reflexivity.
  - cbn [do_oldconfig preorder visit_all].
    destruct (do_oldconfig_for_node
                (Node item prompt filename linenr children next) w)
      as [w1|e w1]; cbn [bind]; [|reflexivity].
    rewrite visit_all_app.
    replace (match children with
             | NoNode => Done w1
             | Node _ _ _ _ _ _ => do_oldconfig children w1
             end) with (do_oldconfig children w1)
      by (destruct children; reflexivity).
    rewrite IHc.
    destruct (visit_all (preorder children) w1) as [w2|e w2]; cbn [bind].
    + apply IHn.
    + reflexivity.
Qed.

(** *** The skip conditions *)

(** C1: whenever one of the six skip conditions holds at a node,
    [do_oldconfig_for_node] returns with the world as it found it: no
    prompt, nothing printed, no line read, no state change.  Conditions 4
    to 6 are conditions on Symbols only. *)
Theorem skip_condition_no_prompt_no_mutation
  (n : nat) (item : Item) (prompt : option string) (filename : string)
  (linenr : Z) (children next : MenuNode) (w : world St) :
  skip_condition n (kst w) item prompt ->
  do_oldconfig_for_node (Node item prompt filename linenr children next) w
  = Done w.
Proof.
  intros Hskip.
  destruct n as [|[|[|[|[|[|[|n]]]]]]]; cbn [skip_condition] in Hskip;
    try contradiction.
  - destruct Hskip as [Hsym Hchoice].
    destruct item as [sym|choice|]; [ | |reflexivity].
    + exfalso. now apply (Hsym sym).
    + exfalso. now apply (Hchoice choice).
  - destruct item; cbn [do_oldconfig_for_node]; try reflexivity;
      rewrite Hskip; reflexivity.
  - subst prompt.
    destruct item; cbn [do_oldconfig_for_node]; try reflexivity;
      destruct (item_visibility _ _ =? 0)%Z; reflexivity.
  - destruct Hskip as (sym & -> & Huser).
    cbn [do_oldconfig_for_node].
    destruct (item_visibility _ _ =? 0)%Z; [reflexivity|].
    destruct prompt; [|reflexivity].
    destruct (sym_user_value (kst w) sym); [reflexivity|].
    now exfalso.
  - destruct Hskip as (sym & -> & Hlen).
    cbn [do_oldconfig_for_node].
    destruct (item_visibility _ _ =? 0)%Z; [reflexivity|].
    destruct prompt; [|reflexivity].
    destruct (sym_user_value (kst w) sym); [reflexivity|].
    rewrite Hlen. reflexivity.
  - destruct Hskip as (sym & choice & -> & Hchoice & Htri).
    cbn [do_oldconfig_for_node].
    destruct (item_visibility _ _ =? 0)%Z; [reflexivity|].
    destruct prompt; [|reflexivity].
    destruct (sym_user_value (kst w) sym); [reflexivity|].
    destruct (List.length (sym_assignable (kst w) sym) =? 1)%nat;
      [reflexivity|].
    unfold in_y_mode_choice. rewrite Hchoice, Htri. reflexivity.
Qed.

(** *** The loops write before they return *)

Lemma print_options_length (st : St) (choice : Choice)
  (options : list Symbol) (i : Z) (tr : list event) :
  (List.length tr <=
   List.length (snd (print_options st choice options i tr)))%nat.
Proof.
  revert i tr.
  induction options as [|sym more IH]; intros i tr; simpl.
  - lia.
  - destruct (sym_nodes sym) as [|node0 nodes]; simpl; [lia|].
    destruct (loc_prompt node0) as [text|]; simpl; [|lia].
    match goal with
    | |- context [print_options _ _ _ ?j ?t] => pose proof (IH j t) as Hle
    end.
    rewrite length_app in Hle. simpl in Hle. lia.
Qed.

Lemma symbol_loop_length (text : string) (sym : Symbol)
  (lines : list string) (st : St) (tr : list event) :
  (List.length tr <
   List.length (trace (final (symbol_loop text sym lines st tr))))%nat.
Proof.
  revert st tr.
  induction lines as [|line rest IH]; intros st tr; cbn [symbol_loop].
  - simpl. rewrite length_app. simpl. lia.
  - destruct (tristate_lookup _ _) as [v|].
    + destruct (fst (sym_set_value sym _ st)).
      * simpl. rewrite length_app. simpl. lia.
      * match goal with
        | |- context [symbol_loop _ _ _ ?s ?t] => pose proof (IH s t) as Hlt
        end.
        rewrite length_app in Hlt. simpl in Hlt. lia.
    + match goal with
      | |- context [symbol_loop _ _ _ ?s ?t] => pose proof (IH s t) as Hlt
      end.
      rewrite !length_app in Hlt. simpl in Hlt. lia.
Qed.

Lemma choice_loop_length (text filename : string) (linenr : Z)
  (choice : Choice) (options : list Symbol) (lines : list string)
  (st : St) (tr : list event) :
  (List.length tr <
   List.length (trace (final (choice_loop text filename linenr choice options
                                lines st tr))))%nat.
Proof.
  revert tr.
  induction lines as [|line rest IH]; intros tr; cbn [choice_loop];
    pose proof (print_options_length st choice options 1%Z
                  (tr ++ [EvPrint (choice_header text filename linenr)])%list)
      as Hprint;
    rewrite length_app in Hprint; simpl in Hprint;
    destruct (print_options st choice options 1%Z _) as [[e|] tr2];
    simpl in Hprint; simpl; rewrite ?length_app; simpl; try lia.
  assert (Hretry :
    (List.length tr <
     List.length (trace (final (choice_loop text filename linenr choice
       options rest st
       ((tr2 ++ [EvInput (ItemChoice choice) (choice_prompt options)]) ++
        [EvEprint "Bad index"])%list))))%nat).
  { match goal with
    | |- context [choice_loop _ _ _ _ _ _ _ ?t] => pose proof (IH t) as Hlt
    end.
    rewrite !length_app in Hlt. simpl in Hlt. lia. }
  destruct (blank line).
  - destruct (choice_selection st choice); simpl; rewrite length_app;
      simpl; lia.
  - destruct (int line) as [i|]; [|exact Hretry].
    destruct ((1 <=? i)%Z && (i <=? Z.of_nat (List.length options))%Z);
      [|exact Hretry].
    destruct (nth_error options (Z.to_nat (i - 1)));
      simpl; rewrite length_app; simpl; lia.
Qed.

(** *** The symbol input loop *)

Lemma hex_prefix_not_hex (ty : sym_type) (v : value) :
  is_bool_or_tristate ty = true -> hex_prefix ty v = v.
Proof.
  destruct ty; simpl; try discriminate; reflexivity.
Qed.

Lemma STR_TO_TRI_table (s : string) (t : Z) :
  STR_TO_TRI s = Some t <->
  (s = "n" /\ t = 0%Z) \/ (s = "m" /\ t = 1%Z) \/ (s = "y" /\ t = 2%Z).
Proof.
  unfold STR_TO_TRI.
  destruct (String.eqb_spec s "n") as [->|Hn].
  { split; [intros [= <-]; auto|].
    intros [[_ ->]|[[[=] _]|[[=] _]]]; reflexivity. }
  destruct (String.eqb_spec s "m") as [->|Hm].
  { split; [intros [= <-]; auto|].
    intros [[[=] _]|[[_ ->]|[[=] _]]]; reflexivity. }
  destruct (String.eqb_spec s "y") as [->|Hy].
  { split; [intros [= <-]; auto|].
    intros [[[=] _]|[[[=] _]|[_ ->]]]; reflexivity. }
  split; [discriminate|].
  intros [[-> _]|[[-> _]|[-> _]]]; congruence.
Qed.

(** C2: in the input loop of a boolean or tri-state symbol a non-blank
    line goes through the case-sensitive table n -> 0, m -> 1, y -> 2.
    A line outside the table gives "Invalid tristate value" and another
    prompt in the same state.  A line of the table whose level is
    assignable ends the loop with exactly that level assigned (for a
    configuration model that accepts the assignable levels and records
    what it accepts). *)
Theorem tristate_input_validation
  (text : string) (sym : Symbol) (line : string) (rest : list string)
  (st : St) (tr : list event) :
  is_bool_or_tristate (sym_type_of st sym) = true ->
  blank line = false ->
  let tr1 :=
    (tr ++ [EvInput (ItemSymbol sym) (symbol_prompt text st sym)])%list in
  (forall t, STR_TO_TRI line = Some t <->
     (line = "n" /\ t = 0%Z) \/ (line = "m" /\ t = 1%Z) \/
     (line = "y" /\ t = 2%Z)) /\
  (STR_TO_TRI line = None ->
   symbol_loop text sym (line :: rest) st tr =
   symbol_loop text sym rest st
     (tr1 ++ [EvEprint "Invalid tristate value"])%list) /\
  (forall t,
     STR_TO_TRI line = Some t ->
     In t (sym_assignable st sym) ->
     accepts_assignable -> records_user_value ->
     exists st',
       symbol_loop text sym (line :: rest) st tr = Done (mkWorld st' rest tr1)
       /\ st' = snd (sym_set_value sym (VTri t) st)
       /\ sym_user_value st' sym = Some (VTri t)).
Proof.
  intros Hty Hline tr1.
  split; [intros t; apply STR_TO_TRI_table|].
  split.
  - intros Hnone.
    cbn [symbol_loop]. rewrite Hline.
    unfold tristate_lookup. rewrite Hty, Hnone. reflexivity.
  - intros t Hsome Hin Haccepts Hrecords.
    exists (snd (sym_set_value sym (VTri t) st)).
    split; [|split; [reflexivity|]].
    + cbn [symbol_loop]. rewrite Hline.
      unfold tristate_lookup. rewrite Hty, Hsome.
      rewrite (hex_prefix_not_hex _ _ Hty).
      rewrite (Haccepts st sym t Hin). reflexivity.
    + apply Hrecords. apply Haccepts. exact Hin.
Qed.

(** *** The choice selection loop *)

Lemma nth_error_in_range {A : Type} (l : list A) (i : Z) :
  (1 <= i <= Z.of_nat (List.length l))%Z ->
  exists a, nth_error l (Z.to_nat (i - 1)) = Some a.
Proof.
  intros Hrange.
  destruct (nth_error l (Z.to_nat (i - 1))) as [a|] eqn:Hnth; [eauto|].
  apply nth_error_None in Hnth. lia.
Qed.

(** C3: in the selection loop of a choice whose options display, a
    non-blank line on which the builtin [int] raises [ValueError], or
    that it reads as an index outside 1 .. count(options), gives the one
    report "Bad index" and another round of the loop in the same state;
    an index within the range ends the loop after the top level 2 has
    been assigned to the option at that (1-based) place of the displayed
    list.  This holds whatever [int] accepts as an integer. *)
Theorem choice_index_validation
  (text filename : string) (linenr : Z) (choice : Choice)
  (options : list Symbol) (line : string) (rest : list string)
  (st : St) (tr tr2 : list event) :
  print_options st choice options 1%Z
    (tr ++ [EvPrint (choice_header text filename linenr)])%list
  = (None, tr2) ->
  blank line = false ->
  let tr3 :=
    (tr2 ++ [EvInput (ItemChoice choice) (choice_prompt options)])%list in
  let retry :=
    choice_loop text filename linenr choice options rest st
      (tr3 ++ [EvEprint "Bad index"])%list in
  let result :=
    choice_loop text filename linenr choice options (line :: rest) st tr in
  (int line = None -> result = retry) /\
  (forall i, int line = Some i ->
     ~ (1 <= i <= Z.of_nat (List.length options))%Z -> result = retry) /\
  (forall i, int line = Some i ->
     (1 <= i <= Z.of_nat (List.length options))%Z ->
     exists sym,
       nth_error options (Z.to_nat (i - 1)) = Some sym /\
       result = Done (mkWorld (snd (sym_set_value sym (VTri 2) st)) rest tr3)).
Proof.
  intros Hprint Hline tr3 retry result.
  subst result retry tr3.
  cbn [choice_loop]. rewrite Hprint, Hline.
  split; [|split].
  - intros ->. reflexivity.
  - intros i -> Hout.
    destruct ((1 <=? i)%Z && (i <=? Z.of_nat (List.length options))%Z)
      eqn:Hin; [|reflexivity].
    exfalso. apply Hout. lia.
  - intros i -> Hin.
    destruct (nth_error_in_range options i Hin) as [sym Hsym].
    exists sym. split; [exact Hsym|].
    rewrite Hsym.
    replace ((1 <=? i)%Z && (i <=? Z.of_nat (List.length options))%Z)
      with true by lia.
    reflexivity.
Qed.

(** *** Blank input and the hex prefix *)

Lemma blank_line_is_default (text : string) (sym : Symbol)
  (rest : list string) (st : St) (tr : list event) :
  symbol_loop text sym ("" :: rest) st tr =
  symbol_loop text sym (sym_str_value st sym :: rest) st tr.
Proof.
  cbn [symbol_loop blank].
  destruct (sym_str_value st sym); reflexivity.
Qed.

Lemma done_is_not_longer (o : outcome St) (st' : St) (rest : list string)
  (tr1 : list event) :
  (List.length tr1 < List.length (trace (final o)))%nat ->
  o <> Done (mkWorld st' rest tr1).
Proof.
  intros Hlt ->. simpl in Hlt. lia.
Qed.

(** X14: a blank line stands for the symbol's current textual value,
    which then takes the path of any other input (the tri-state table,
    the hex prefix, the validating setter).  The loop ends in that
    iteration exactly when the value is in the table (for a boolean or
    tri-state symbol) and the setter accepts it; when not, the loop
    prompts again. *)
Theorem blank_input_ends_loop_iff_accepted
  (text : string) (sym : Symbol) (rest : list string) (st : St)
  (tr : list event) :
  let ty := sym_type_of st sym in
  let default := sym_str_value st sym in
  let tr1 :=
    (tr ++ [EvInput (ItemSymbol sym) (symbol_prompt text st sym)])%list in
  let result := symbol_loop text sym ("" :: rest) st tr in
  result = symbol_loop text sym (default :: rest) st tr /\
  (forall st',
     result = Done (mkWorld st' rest tr1) <->
     exists v,
       tristate_lookup ty default = Some v /\
       fst (sym_set_value sym (hex_prefix ty v) st) = true /\
       st' = snd (sym_set_value sym (hex_prefix ty v) st)) /\
  (tristate_lookup ty default = None ->
   result = symbol_loop text sym rest st
              (tr1 ++ [EvEprint "Invalid tristate value"])%list) /\
  (forall v,
     tristate_lookup ty default = Some v ->
     fst (sym_set_value sym (hex_prefix ty v) st) = false ->
     result = symbol_loop text sym rest
                (snd (sym_set_value sym (hex_prefix ty v) st)) tr1).
Proof.
  intros ty default tr1 result.
  assert (Hnone :
    tristate_lookup ty default = None ->
    result = symbol_loop text sym rest st
               (tr1 ++ [EvEprint "Invalid tristate value"])%list).
  { intros Hlookup. subst result. cbn [symbol_loop blank].
    fold ty default. rewrite Hlookup. reflexivity. }
  assert (Hrejected : forall v,
    tristate_lookup ty default = Some v ->
    fst (sym_set_value sym (hex_prefix ty v) st) = false ->
    result = symbol_loop text sym rest
               (snd (sym_set_value sym (hex_prefix ty v) st)) tr1).
  { intros v Hlookup Hfst. subst result. cbn [symbol_loop blank].
    fold ty default. rewrite Hlookup, Hfst. reflexivity. }
  split; [apply blank_line_is_default|].
  split; [|split; assumption].
  intros st'. split.
  - intros Hdone.
    destruct (tristate_lookup ty default) as [v|] eqn:Hlookup.
    + destruct (fst (sym_set_value sym (hex_prefix ty v) st)) eqn:Hfst.
      * exists v. split; [reflexivity|]. split; [exact Hfst|].
        subst result. cbn [symbol_loop blank] in Hdone.
        fold ty default in Hdone. rewrite Hlookup, Hfst in Hdone.
        now injection Hdone.
      * exfalso. rewrite (Hrejected v eq_refl Hfst) in Hdone.
        revert Hdone. apply done_is_not_longer, symbol_loop_length.
    + exfalso. rewrite (Hnone eq_refl) in Hdone.
      revert Hdone. apply done_is_not_longer.
      eapply Nat.le_lt_trans; [|apply symbol_loop_length].
      rewrite length_app. lia.
  - intros (v & Hlookup & Hfst & ->).
    subst result. cbn [symbol_loop blank].
    fold ty default. rewrite Hlookup, Hfst. reflexivity.
Qed.

Lemma hex_candidate (text : string) (sym : Symbol) (line : string)
  (rest : list string) (st : St) (tr : list event) :
  sym_type_of st sym = HEX ->
  let val := if blank line then sym_str_value st sym else line in
  let r :=
    sym_set_value sym
      (VStr (if startswith_0x val then val else "0x" ++ val)) st in
  let tr1 :=
    (tr ++ [EvInput (ItemSymbol sym) (symbol_prompt text st sym)])%list in
  symbol_loop text sym (line :: rest) st tr =
  if fst r then Done (mkWorld (snd r) rest tr1)
  else symbol_loop text sym rest (snd r) tr1.
Proof.
  intros Hty val r tr1. subst r tr1.
  cbn [symbol_loop]. fold val.
  rewrite Hty. cbn [tristate_lookup is_bool_or_tristate sym_type_eqb orb].
  cbn [hex_prefix sym_type_eqb].
  destruct (startswith_0x val); reflexivity.
Qed.

(** C4: for a hexadecimal symbol the candidate value, typed or taken
    from the default on a blank line, goes to the setter with "0x" put in
    front unless it starts with "0x" or "0X" already, so that "123" and
    "0x123" are the same input; symbols of the other string-like types
    get their candidate unchanged.  Loading a saved configuration hands
    the saved literal to the setter as it is: the same "123" loaded for
    HEX_SYM stays "123". *)
Theorem hex_prefix_only_at_the_prompt :
  (forall text sym line rest st tr,
     sym_type_of st sym = HEX ->
     let val := if blank line then sym_str_value st sym else line in
     let r :=
       sym_set_value sym
         (VStr (if startswith_0x val then val else "0x" ++ val)) st in
     let tr1 :=
       (tr ++ [EvInput (ItemSymbol sym) (symbol_prompt text st sym)])%list in
     symbol_loop text sym (line :: rest) st tr =
     if fst r then Done (mkWorld (snd r) rest tr1)
     else symbol_loop text sym rest (snd r) tr1) /\
  (forall text sym rest st tr,
     sym_type_of st sym = HEX ->
     symbol_loop text sym ("123" :: rest) st tr =
     symbol_loop text sym ("0x123" :: rest) st tr) /\
  (forall ty val,
     ty = STRING \/ ty = INT -> hex_prefix ty (VStr val) = VStr val) /\
  (forall k name literal sym st,
     Tab.find_sym name (Tab.symbols k) 0 = Some sym ->
     Tab.d_type (Tab.decl k sym) = HEX ->
     Tab.load_assignment k (name, literal) st =
     snd (Tab.set_value k sym (VStr literal) st)) /\
  Tab.lookup 5%nat
    (Tab.user_values
       (Tab.load_config Sample.kconf [("HEX_SYM", "123")] Sample.empty))
  = Some (VStr "123") /\
  Tab.lookup 5%nat
    (Tab.user_values
       (kst (final (Sample.prompt_node Sample.kconf (Sample.node_of 5)
                      Sample.empty ["123"]))))
  = Some (VStr "0x123").
Proof.
  split; [intros; now apply hex_candidate|].
  split.
  { intros text sym rest st tr Hty.
    rewrite !(hex_candidate _ _ _ _ _ _ Hty). reflexivity. }
  split; [intros ty val [->| ->]; reflexivity|].
  split; [|split; reflexivity].
  intros k name literal sym st Hfind Hty.
  unfold Tab.load_assignment. cbn [fst snd].
  rewrite Hfind, Hty. reflexivity.
Qed.

(** *** The display of the options *)

Lemma has_first_prompt_dec (sym : Symbol) :
  {has_first_prompt sym} + {~ has_first_prompt sym}.
Proof.
  unfold has_first_prompt.
  destruct (sym_nodes sym) as [|node0 more].
  - right. intros (n & m & t & [=] & _).
  - destruct (loc_prompt node0) as [text|] eqn:Hprompt.
    + left. eauto.
    + right. intros (n & m & t & [= <- <-] & Ht). congruence.
Qed.

Lemma first_prompt_text_eq (sym : Symbol) (node0 : NodeLoc)
  (more : list NodeLoc) (text : string) :
  sym_nodes sym = node0 :: more -> loc_prompt node0 = Some text ->
  first_prompt_text sym = text.
Proof.
  intros Hnodes Hprompt. unfold first_prompt_text.
  now rewrite Hnodes, Hprompt.
Qed.

Lemma print_options_presents (st : St) (choice : Choice)
  (options : list Symbol) (first : nat) (tr : list event) :
  Forall has_first_prompt options ->
  print_options st choice options (Z.of_nat first) tr =
  (None, (tr ++ presented_from first st choice options)%list).
Proof.
  intros Hall. revert first tr.
  induction Hall as [|sym more (node0 & nodes & text & Hnodes & Hprompt) _ IH];
    intros first tr.
  - unfold presented_from. simpl. now rewrite app_nil_r.
  - cbn [print_options]. rewrite Hnodes, Hprompt.
    replace (Z.of_nat first + 1)%Z with (Z.of_nat (S first)) by lia.
    rewrite IH, <- app_assoc.
    unfold presented_from. cbn [List.length seq combine map fst snd app].
    now rewrite (first_prompt_text_eq _ _ _ _ Hnodes Hprompt).
Qed.

Lemma print_options_ok_iff (st : St) (choice : Choice)
  (options : list Symbol) (i : Z) (tr : list event) :
  fst (print_options st choice options i tr) = None <->
  Forall has_first_prompt options.
Proof.
  revert i tr.
  induction options as [|sym more IH]; intros i tr; cbn [print_options].
  - split; [constructor|reflexivity].
  - destruct (sym_nodes sym) as [|node0 nodes] eqn:Hnodes.
    + split; [discriminate|].
      intros Hall. inversion Hall as [|? ? (n & m & t & Hn & _) _].
      congruence.
    + destruct (loc_prompt node0) as [text|] eqn:Hprompt.
      * rewrite IH. split.
        -- intros Hall. constructor; [|exact Hall].
           exists node0, nodes, text. auto.
        -- intros Hall. now inversion Hall.
      * split; [discriminate|].
        intros Hall. inversion Hall as [|? ? (n & m & t & Hn & Ht) _].
        congruence.
Qed.

Lemma print_options_exn (st : St) (choice : Choice)
  (options : list Symbol) (i : Z) (tr : list event) (e : exn) :
  fst (print_options st choice options i tr) = Some e ->
  e = IndexError \/ e = TypeError.
Proof.
  revert i tr.
  induction options as [|sym more IH]; intros i tr; cbn [print_options].
  - discriminate.
  - destruct (sym_nodes sym) as [|node0 nodes].
    + intros [= <-]. auto.
    + destruct (loc_prompt node0) as [text|].
      * apply IH.
      * intros [= <-]. auto.
Qed.

Lemma choice_loop_display_raises (text filename : string) (linenr : Z)
  (choice : Choice) (options : list Symbol) (lines : list string)
  (st : St) (tr : list event) :
  ~ Forall has_first_prompt options ->
  exists e w',
    choice_loop text filename linenr choice options lines st tr = Raised e w'
    /\ (e = IndexError \/ e = TypeError) /\ kst w' = st /\ stdin w' = lines.
Proof.
  intros Hnot.
  pose proof (print_options_ok_iff st choice options 1%Z
                (tr ++ [EvPrint (choice_header text filename linenr)])%list)
    as Hiff.
  pose proof (print_options_exn st choice options 1%Z
                (tr ++ [EvPrint (choice_header text filename linenr)])%list)
    as Hexn.
  destruct lines as [|line rest]; cbn [choice_loop];
    destruct (print_options st choice options 1%Z _) as [[e|] tr2];
    cbn [fst] in Hiff, Hexn;
    try (exfalso; apply Hnot, Hiff; reflexivity);
    exists e; eexists; (split; [reflexivity|]);
    (split; [now apply Hexn|]); split; reflexivity.
Qed.

Lemma choice_node_enters_loop (text filename : string) (linenr : Z)
  (choice : Choice) (children next : MenuNode) (w : world St) :
  choice_visibility (kst w) choice <> 0%Z ->
  has_visible_user_selection (kst w) choice = false ->
  choice_options (kst w) choice <> [] ->
  do_oldconfig_for_node
    (Node (ItemChoice choice) (Some text) filename linenr children next) w =
  choice_loop text filename linenr choice (choice_options (kst w) choice)
    (stdin w) (kst w) (trace w).
Proof.
  intros Hvis Hsel Hopts.
  cbn [do_oldconfig_for_node item_visibility].
  apply Z.eqb_neq in Hvis. rewrite Hvis, Hsel.
  destruct (choice_options (kst w) choice); [contradiction|reflexivity].
Qed.

(** C10: the display of the options reads [sym.nodes[0].prompt[0]] of
    every option with no guard.  It goes through exactly when every
    option has a first defining node that carries a prompt; when one has
    not, the display raises [IndexError] or [TypeError], and so does the
    prompt of the choice node, before it has read a line or changed the
    state.  When it goes through it shows the options in order. *)
Theorem option_display_needs_first_prompts :
  (forall st choice options i tr,
     fst (print_options st choice options i tr) = None <->
     Forall has_first_prompt options) /\
  (forall st choice options i tr e,
     fst (print_options st choice options i tr) = Some e ->
     e = IndexError \/ e = TypeError) /\
  (forall text filename linenr choice children next w,
     choice_visibility (kst w) choice <> 0%Z ->
     has_visible_user_selection (kst w) choice = false ->
     choice_options (kst w) choice <> [] ->
     ~ Forall has_first_prompt (choice_options (kst w) choice) ->
     exists e w',
       do_oldconfig_for_node
         (Node (ItemChoice choice) (Some text) filename linenr children next)
         w = Raised e w' /\
       (e = IndexError \/ e = TypeError) /\
       kst w' = kst w /\ stdin w' = stdin w) /\
  (forall st choice options tr,
     Forall has_first_prompt options ->
     print_options st choice options 1%Z tr =
     (None, (tr ++ presented st choice options)%list)).
Proof.
  split; [exact print_options_ok_iff|].
  split; [exact print_options_exn|].
  split.
  - intros text filename linenr choice children next w Hvis Hsel Hopts Hnot.
    rewrite (choice_node_enters_loop _ _ _ _ _ _ _ Hvis Hsel Hopts).
    now apply choice_loop_display_raises.
  - intros st choice options tr Hall.
    exact (print_options_presents st choice options 1 tr Hall).
Qed.

(** *** The skip conditions of a choice *)

Lemma has_visible_user_selection_spec (st : St) (choice : Choice) :
  has_visible_user_selection st choice = true <->
  exists sym,
    choice_user_selection st choice = Some sym /\
    sym_visibility st sym = 2%Z.
Proof.
  unfold has_visible_user_selection.
  destruct (choice_user_selection st choice) as [sym|].
  - rewrite Z.eqb_eq. split.
    + intros Hvis. exists sym. auto.
    + intros (s & [= <-] & Hvis). exact Hvis.
  - split; [discriminate|]. intros (s & [=] & _).
Qed.

(** C6, as the code has it: a choice node that is visible and carries a
    prompt is skipped, with no prompt and no mutation, exactly when the
    choice has a user selection of visibility 2 or no member of
    visibility 2; otherwise the loop runs on the members of visibility 2,
    in the order of the choice's members, and presents exactly these. *)
Theorem choice_node_skip_conditions
  (text filename : string) (linenr : Z) (choice : Choice)
  (children next : MenuNode) (w : world St) :
  choice_visibility (kst w) choice <> 0%Z ->
  let node :=
    Node (ItemChoice choice) (Some text) filename linenr children next in
  let options := choice_options (kst w) choice in
  (do_oldconfig_for_node node w = Done w <->
   (exists sym,
      choice_user_selection (kst w) choice = Some sym /\
      sym_visibility (kst w) sym = 2%Z) \/
   options = []) /\
  (do_oldconfig_for_node node w <> Done w ->
   do_oldconfig_for_node node w =
   choice_loop text filename linenr choice options (stdin w) (kst w)
     (trace w)) /\
  options =
    filter (fun sym => (sym_visibility (kst w) sym =? 2)%Z)
           (choice_syms choice) /\
  (forall tr,
     Forall has_first_prompt options ->
     print_options (kst w) choice options 1%Z tr =
     (None, (tr ++ presented (kst w) choice options)%list)).
Proof.
  intros Hvis node options.
  assert (Hskip :
    has_visible_user_selection (kst w) choice = true \/ options = [] ->
    do_oldconfig_for_node node w = Done w).
  { intros Hcase. subst node options.
    cbn [do_oldconfig_for_node item_visibility].
    destruct (choice_visibility (kst w) choice =? 0)%Z; [reflexivity|].
    destruct Hcase as [-> | ->]; [reflexivity|].
    destruct (has_visible_user_selection (kst w) choice); reflexivity. }
  assert (Hloop :
    has_visible_user_selection (kst w) choice = false -> options <> [] ->
    do_oldconfig_for_node node w =
    choice_loop text filename linenr choice options (stdin w) (kst w)
      (trace w)).
  { intros Hsel Hopts. now apply choice_node_enters_loop. }
  assert (Hcases :
    (has_visible_user_selection (kst w) choice = true \/ options = []) \/
    (has_visible_user_selection (kst w) choice = false /\ options <> [])).
  { destruct (has_visible_user_selection (kst w) choice); [auto|].
    destruct options; [auto|]. right. split; [reflexivity|discriminate]. }
  split; [|split; [|split]].
  - rewrite <- has_visible_user_selection_spec. split; [|exact Hskip].
    intros Hdone.
    destruct Hcases as [Hcase|[Hsel Hopts]]; [exact Hcase|].
    exfalso. rewrite (Hloop Hsel Hopts) in Hdone.
    revert Hdone. destruct w as [st lines tr].
    apply done_is_not_longer, choice_loop_length.
  - intros Hnot.
    destruct Hcases as [Hcase|[Hsel Hopts]]; [|now apply Hloop].
    exfalso. now apply Hnot, Hskip.
  - reflexivity.
  - intros tr Hall.
    exact (print_options_presents (kst w) choice options 1 tr Hall).
Qed.

(** *** Exceptions that leave a loop *)

Lemma symbol_loop_raises (text : string) (sym : Symbol)
  (lines : list string) (st : St) (tr : list event) (e : exn)
  (w' : world St) :
  symbol_loop text sym lines st tr = Raised e w' ->
  e = EOFError /\ stdin w' = [].
Proof.
  revert st tr.
  induction lines as [|line rest IH]; intros st tr; cbn [symbol_loop].
  - intros [= <- <-]. auto.
  - destruct (tristate_lookup _ _) as [v|]; [|apply IH].
    destruct (fst (sym_set_value sym _ st)); [discriminate|apply IH].
Qed.

Lemma choice_loop_raises (text filename : string) (linenr : Z)
  (choice : Choice) (options : list Symbol) (lines : list string)
  (st : St) (tr : list event) (e : exn) (w' : world St) :
  Forall has_first_prompt options ->
  choice_selection st choice <> None ->
  choice_loop text filename linenr choice options lines st tr = Raised e w' ->
  e = EOFError /\ stdin w' = [].
Proof.
  intros Hall Hsel. revert tr.
  induction lines as [|line rest IH]; intros tr; cbn [choice_loop];
    rewrite (print_options_presents st choice options 1 _ Hall).
  - intros [= <- <-]. auto.
  - destruct (blank line).
    + destruct (choice_selection st choice); [discriminate|contradiction].
    + destruct (int line) as [i|]; [|apply IH].
      destruct ((1 <=? i)%Z && (i <=? Z.of_nat (List.length options))%Z)
        eqn:Hrange; [|apply IH].
      destruct (nth_error_in_range options i ltac:(lia)) as [sym ->].
      discriminate.
Qed.


Lemma node_raises (node : MenuNode) (w : world St) (e : exn)
  (w' : world St) :
  selection_present -> options_have_prompts ->
  node <> NoNode ->
  do_oldconfig_for_node node w = Raised e w' ->
  e = EOFError /\ stdin w' = [].
Proof.
  intros Hsel Hprompts Hnode.
  destruct node as [|item prompt filename linenr children next];
    [contradiction|].
  destruct item as [sym|choice|]; cbn [do_oldconfig_for_node];
    [| |discriminate];
    (destruct (item_visibility _ _ =? 0)%Z; [discriminate|]);
    (destruct prompt as [text|]; [|discriminate]).
  - destruct (sym_user_value (kst w) sym); [discriminate|].
    destruct (List.length (sym_assignable (kst w) sym) =? 1)%nat;
      [discriminate|].
    destruct (in_y_mode_choice (kst w) sym); [discriminate|].
    apply symbol_loop_raises.
  - destruct (has_visible_user_selection (kst w) choice); [discriminate|].
    destruct (choice_options (kst w) choice) as [|opt more] eqn:Hopts;
      [discriminate|].
    apply choice_loop_raises.
    + apply Forall_forall. intros sym Hin.
      apply (Hprompts (kst w) choice). now rewrite Hopts.
    + apply Hsel. rewrite Hopts. discriminate.
Qed.

Lemma walk_raises (node : MenuNode) (w : world St) (e : exn)
  (w' : world St) :
  selection_present -> options_have_prompts ->
  do_oldconfig node w = Raised e w' ->
  e = EOFError /\ stdin w' = [].
Proof.
  intros Hsel Hprompts. revert w.
  induction node as [|item prompt filename linenr children IHc next IHn];
    intros w; cbn [do_oldconfig].
  - discriminate.
  - destruct (do_oldconfig_for_node
                (Node item prompt filename linenr children next) w)
      as [w1|e1 w1] eqn:Hnode; cbn [bind].
    + replace (match children with
               | NoNode => Done w1
               | Node _ _ _ _ _ _ => do_oldconfig children w1
               end) with (do_oldconfig children w1)
        by (destruct children; reflexivity).
      destruct (do_oldconfig children w1) as [w2|e2 w2] eqn:Hchildren;
        cbn [bind].
      * apply IHn.
      * intros [= <- <-]. now apply (IHc w1).
    + intros [= <- <-].
      eapply node_raises; [exact Hsel|exact Hprompts| |exact Hnode].
      discriminate.
Qed.

(** *** What the walk leaves alone *)

Lemma prompts_for_snoc (item : Item) (tr : list event) (e : event) :
  prompts_for item (tr ++ [e]) =
  (prompts_for item tr +
   match e with
   | EvInput who _ => if item_eqb who item then 1 else 0
   | _ => 0
   end)%nat.
Proof.
  unfold prompts_for. rewrite filter_app, length_app. f_equal.
  destruct e as [who text|line|line]; simpl; try reflexivity.
  destruct (item_eqb who item); reflexivity.
Qed.


Section Invariant.

(** A property [P] of the state that says the symbol [s] has a user
    value, and that the setter keeps when it is called on another symbol
    or on a symbol the choice loop may pick (a symbol of [T]). *)
Variable s : Symbol.
Variable P : St -> Prop.
Variable T : Symbol -> Prop.
Hypothesis P_user : forall st, P st -> sym_user_value st s <> None.
Hypothesis P_other :
  forall sym v st, sym <> s -> P st -> P (snd (sym_set_value sym v st)).
Hypothesis P_target :
  forall sym v st, T sym -> P st -> P (snd (sym_set_value sym v st)).
Hypothesis T_member :
  forall choice sym, In sym (choice_syms choice) -> T sym.
Hypothesis T_selection :
  forall st choice sym, choice_selection st choice = Some sym -> T sym.





End Invariant.


End Claims.

(** ** The table-driven configuration keeps the contract *)

Lemma lookup_update_same {A : Type} (key : nat) (a : A)
  (l : list (nat * A)) :
  Tab.lookup key (Tab.update key a l) = Some a.
Proof.
  unfold Tab.update. simpl. now rewrite Nat.eqb_refl.
Qed.

Lemma lookup_update_other {A : Type} (key other : nat) (a : A)
  (l : list (nat * A)) :
  other <> key ->
  Tab.lookup other (Tab.update key a l) = Tab.lookup other l.
Proof.
  intros Hneq. unfold Tab.update. simpl.
  replace (Nat.eqb key other) with false
    by (symmetry; apply Nat.eqb_neq; auto).
  induction l as [|[k b] l IH]; simpl; [reflexivity|].
  destruct (Nat.eqb_spec k key) as [->|Hk]; simpl.
  - replace (Nat.eqb key other) with false
      by (symmetry; apply Nat.eqb_neq; auto).
    exact IH.
  - rewrite IH. reflexivity.
Qed.

Lemma tab_records_user_value (k : Tab.Kconf) :
  records_user_value (K := Tab.model k).
Proof.
  intros st sym v. simpl. unfold Tab.set_value.
  destruct (Tab.valid_for _ v); simpl; [|discriminate].
  intros _. apply lookup_update_same.
Qed.

Lemma tab_frames_user_values (k : Tab.Kconf) :
  frames_user_values (K := Tab.model k).
Proof.
  intros st sym v other Hneq. simpl. unfold Tab.set_value.
  destruct (Tab.valid_for _ v); simpl; [|reflexivity].
  now apply lookup_update_other.
Qed.


Lemma tab_members_have_choice (k : Tab.Kconf) (choice : Choice)
  (sym : Symbol) :
  Tab.member k choice sym = true -> Tab.d_choice (Tab.decl k sym) <> None.
Proof.
  unfold Tab.member.
  destruct (Tab.d_choice (Tab.decl k sym)); [discriminate|discriminate].
Qed.

Lemma sample_accepts_assignable :
  accepts_assignable (K := Tab.model Sample.kconf).
Proof.
  intros st sym t. simpl. unfold Tab.set_value, Tab.decl.
  do 9 (destruct sym as [|sym];
        [simpl; intuition (subst; reflexivity)|]).
  destruct sym; simpl; contradiction.
Qed.

Lemma sample_members_know_choice :
  members_know_choice (K := Tab.model Sample.kconf).
Proof.
  split.
  - intros choice sym Hin. simpl in *. unfold Tab.syms_of in Hin.
    apply filter_In in Hin. destruct Hin as [_ Hmember].
    now apply (tab_members_have_choice _ choice).
  - intros st choice sym. simpl. unfold Tab.selection, Tab.user_selection.
    assert (Hdefault :
      Tab.derived_selection Sample.kconf choice = Some sym ->
      Tab.d_choice (Tab.decl Sample.kconf sym) <> None).
    { destruct choice as [|[|choice]]; cbv; try discriminate.
      intros [= <-]. discriminate. }
    destruct (Tab.lookup choice (Tab.user_selections st)) as [sel|];
      [|exact Hdefault].
    destruct (Tab.member Sample.kconf choice sel) eqn:Hmember;
      [|exact Hdefault].
    destruct (Tab.d_visibility (Tab.decl Sample.kconf sel) =? 2)%Z;
      [|exact Hdefault].
    intros [= <-]. now apply (tab_members_have_choice _ choice).
Qed.

Lemma sample_options (st : Tab.KState) (choice : Choice) :
  choice_options (K := Tab.model Sample.kconf) st choice =
  match choice with
  | O => [6; 7; 8]%nat
  | S _ => []
  end.
Proof.
  destruct choice; reflexivity.
Qed.

Lemma tab_selection_present (k : Tab.Kconf) :
  selection_present (K := Tab.model k).
Proof.
  intros st choice. simpl.
  unfold choice_options, Tab.selection, Tab.derived_selection. simpl.
  intros Hopts.
  assert (Hderived :
    match Tab.c_default (Tab.cdecl k choice) with
    | Some sym => Some sym
    | None =>
        hd_error
          (filter (fun sym => (Tab.d_visibility (Tab.decl k sym) =? 2)%Z)
                  (Tab.syms_of k choice))
    end <> None).
  { destruct (Tab.c_default (Tab.cdecl k choice)); [discriminate|].
    destruct (filter _ (Tab.syms_of k choice)); [contradiction|].
    discriminate. }
  destruct (Tab.user_selection k st choice) as [sel|]; [|exact Hderived].
  destruct (Tab.d_visibility (Tab.decl k sel) =? 2)%Z;
    [discriminate|exact Hderived].
Qed.

Lemma sample_selection_present :
  selection_present (K := Tab.model Sample.kconf).
Proof.
  intros st choice. rewrite sample_options.
  destruct choice as [|choice]; [intros _|contradiction].
  simpl. unfold Tab.selection.
  destruct (Tab.user_selection Sample.kconf st 0) as [sel|];
    [|discriminate].
  destruct (Tab.d_visibility (Tab.decl Sample.kconf sel) =? 2)%Z;
    discriminate.
Qed.

Lemma sample_options_have_prompts :
  options_have_prompts (K := Tab.model Sample.kconf).
Proof.
  intros st choice sym. rewrite sample_options.
  destruct choice as [|choice]; [|contradiction].
  intros [<-|[<-|[<-|[]]]]; unfold has_first_prompt;
    do 3 eexists; split; reflexivity.
Qed.

(** ** The header's session *)

(** The embedding run on the header's sample: the prompts and reports of
    the session in the script's header, in their order, and the user
    values that give the [.config] shown there. *)
Example header_session :
  Sample.run Sample.session_input =
  Done (mkWorld
    (Tab.mkState
       [ (8%nat, VTri 2); (5%nat, VStr "0x123"); (4%nat, VStr "123");
         (3%nat, VStr "bar"); (2%nat, VTri 1); (1%nat, VTri 0) ]
       [ (0%nat, 8%nat) ])
    []
    [ EvInput (ItemSymbol 1)
        "BOOL_SYM prompt (BOOL_SYM, defined at Kconfig:5) [n/Y] ";
      EvEprint "Invalid tristate value";
      EvInput (ItemSymbol 1)
        "BOOL_SYM prompt (BOOL_SYM, defined at Kconfig:5) [n/Y] ";
      EvInput (ItemSymbol 2)
        "TRISTATE_SYM prompt (TRISTATE_SYM, defined at Kconfig:9) [n/M/y] ";
      EvInput (ItemSymbol 3)
        "STRING_SYM prompt (STRING_SYM, defined at Kconfig:13) [foo] ";
      EvInput (ItemSymbol 4)
        "INT_SYM prompt (INT_SYM, defined at Kconfig:17) [] ";
      EvInput (ItemSymbol 4)
        "INT_SYM prompt (INT_SYM, defined at Kconfig:17) [] ";
      EvInput (ItemSymbol 5)
        "HEX_SYM prompt (HEX_SYM, defined at Kconfig:20) [] ";
      EvPrint "A choice that defaults to CHOICE_B (defined at Kconfig:23)";
      EvPrint "  1. CHOICE_A's prompt (CHOICE_A)";
      EvPrint "> 2. CHOICE_B's prompt (CHOICE_B)";
      EvPrint "  3. CHOICE_C's prompt (CHOICE_C)";
      EvInput (ItemChoice 0) "choice[1-3]: ";
      EvEprint "Bad index";
      EvPrint "A choice that defaults to CHOICE_B (defined at Kconfig:23)";
      EvPrint "  1. CHOICE_A's prompt (CHOICE_A)";
      EvPrint "> 2. CHOICE_B's prompt (CHOICE_B)";
      EvPrint "  3. CHOICE_C's prompt (CHOICE_C)";
      EvInput (ItemChoice 0) "choice[1-3]: " ]).
Proof. vm_compute. reflexivity. Qed.

(** [int] on a few lines. *)
Example py_int_examples :
  py_int "3" = Some 3%Z /\ py_int " +1_0 " = Some 10%Z /\
  py_int "-3" = Some (-3)%Z /\ py_int "1__0" = None /\
  py_int "" = None /\ py_int "abc" = None /\ py_int "0x10" = None.
Proof. repeat split; reflexivity. Qed.

(** The separators 28 to 31 are white space for [isspace] and not for
    [int]: a line that starts with one is no numeral. *)
Example py_int_separator :
  is_space (ascii_of_nat 28) = true /\
  py_int (String (ascii_of_nat 28) "3") = None /\
  py_int (String (ascii_of_nat 9) "3 ") = Some 3%Z.
Proof. repeat split; reflexivity. Qed.

(** ** The theorems at the sample *)

Local Abbreviation sample := (Tab.model Sample.kconf).

(** BOOL_SYM with a saved value is skipped (condition 4). *)
Lemma skip_condition_witness :
  Sample.prompt_node Sample.kconf (Sample.node_of 1) Sample.saved_choice_a
    ["n"]
  = Done (mkWorld Sample.saved_choice_a ["n"] []).
Proof.
  apply (skip_condition_no_prompt_no_mutation (B := ascii_builtins)
           (K := sample) 4
           (ItemSymbol 1) (Some "BOOL_SYM prompt") "Kconfig" 5 NoNode NoNode
           (mkWorld Sample.saved_choice_a ["n"] [])).
  exists 1%nat. split; [reflexivity|discriminate].
Defined.

(** TRISTATE_SYM takes "y". *)
Lemma tristate_input_witness :
  exists st',
    symbol_loop (K := sample) "TRISTATE_SYM prompt" 2 ["y"] Sample.empty []
    = Done (mkWorld st' []
              [EvInput (ItemSymbol 2)
                 (symbol_prompt (K := sample) "TRISTATE_SYM prompt"
                    Sample.empty 2)]) /\
    st' = snd (sym_set_value (Kconfiglib := sample) 2%nat (VTri 2)
                 Sample.empty) /\
    sym_user_value (Kconfiglib := sample) st' 2%nat = Some (VTri 2).
Proof.
  apply (proj2 (proj2 (tristate_input_validation (K := sample)
                         "TRISTATE_SYM prompt" 2 "y" [] Sample.empty []
                         eq_refl eq_refl)) 2%Z eq_refl).
  - simpl. auto.
  - exact sample_accepts_assignable.
  - apply tab_records_user_value.
Defined.

(** The choice takes "3": CHOICE_C. *)
Lemma choice_index_witness :
  exists sym,
    nth_error [6; 7; 8]%nat (Z.to_nat (3 - 1)) = Some sym /\
    choice_loop (K := sample) "A choice that defaults to CHOICE_B" "Kconfig"
      23 0 [6; 7; 8]%nat ["3"] Sample.empty []
    = Done (mkWorld
              (snd (sym_set_value (Kconfiglib := sample) sym (VTri 2)
                      Sample.empty))
              []
              (snd (print_options (K := sample) Sample.empty 0
                      [6; 7; 8]%nat 1
                      [EvPrint (choice_header
                                  "A choice that defaults to CHOICE_B"
                                  "Kconfig" 23)]) ++
               [EvInput (ItemChoice 0)
                  (choice_prompt [6; 7; 8]%nat)])%list).
Proof.
  apply (proj2 (proj2 (choice_index_validation (B := ascii_builtins)
           (K := sample)
                         "A choice that defaults to CHOICE_B" "Kconfig" 23 0
                         [6; 7; 8]%nat "3" [] Sample.empty [] _
                         eq_refl eq_refl)) 3%Z eq_refl).
  simpl. lia.
Defined.

(** HEX_SYM: "123" is "0x123". *)
Lemma hex_prefix_witness :
  symbol_loop (K := sample) "HEX_SYM prompt" 5 ["123"] Sample.empty [] =
  symbol_loop (K := sample) "HEX_SYM prompt" 5 ["0x123"] Sample.empty [].
Proof.
  apply (proj1 (proj2 (hex_prefix_only_at_the_prompt (K := sample)))).
  reflexivity.
Defined.

(** The choice node of the sample, with CHOICE_A saved as the
    selection, is skipped for the first of the two reasons. *)
Lemma choice_node_skip_witness :
  Sample.prompt_node Sample.kconf Sample.choice_node Sample.saved_choice_a
    ["2"]
  = Done (mkWorld Sample.saved_choice_a ["2"] []) <->
  (exists sym,
     choice_user_selection (Kconfiglib := sample) Sample.saved_choice_a 0%nat
     = Some sym /\
     sym_visibility (Kconfiglib := sample) Sample.saved_choice_a sym = 2%Z) \/
  choice_options (K := sample) Sample.saved_choice_a 0 = [].
Proof.
  apply (proj1 (choice_node_skip_conditions (B := ascii_builtins)
           (K := sample)
                  "A choice that defaults to CHOICE_B" "Kconfig" 23 0
                  (Sample.sym_node 6 (Sample.sym_node 7
                     (Sample.sym_node 8 NoNode)))
                  NoNode (mkWorld Sample.saved_choice_a ["2"] [])
                  ltac:(discriminate))).
Defined.

(** BOOL_SYM: a blank line is "y", the default. *)
Lemma blank_input_witness :
  symbol_loop (K := sample) "BOOL_SYM prompt" 1 [""] Sample.empty [] =
  symbol_loop (K := sample) "BOOL_SYM prompt" 1 ["y"] Sample.empty [].
Proof.
  exact (proj1 (blank_input_ends_loop_iff_accepted (K := sample)
                  "BOOL_SYM prompt" 1 [] Sample.empty [])).
Defined.


(** The three options of the sample display. *)
Lemma option_display_witness :
  print_options (K := sample) Sample.empty 0 [6; 7; 8]%nat 1 [] =
  (None, ([] ++ presented (K := sample) Sample.empty 0 [6; 7; 8]%nat)%list).
Proof.
  apply (proj2 (proj2 (proj2 (option_display_needs_first_prompts (B := ascii_builtins)
           (K := sample))))).
  apply Forall_forall. intros sym Hin.
  apply (sample_options_have_prompts Sample.empty 0%nat).
  exact Hin.
Defined.

(** ** Where the specification says more than the code does *)

(** C6, as stated, fails: a second definition location of the choice
    that has no prompt is skipped although the choice has no user
    selection and all three members are selectable. *)
Lemma promptless_choice_node_is_skipped :
  Sample.prompt_node Sample.kconf Sample.promptless_choice_node Sample.empty
    ["2"]
  = Done (mkWorld Sample.empty ["2"] []) /\
  choice_user_selection (Kconfiglib := sample) Sample.empty 0%nat = None /\
  choice_options (K := sample) Sample.empty 0 = [6; 7; 8]%nat.
Proof. repeat split; reflexivity. Qed.

(** C7: the code at the failing input.  The comment at lines 177-178
    says the loop runs until a valid value or a blank string is entered,
    and the choice loop returns on a blank line whatever happens; the
    symbol loop returns only when the setter accepts.  INT_SYM of the
    header has no default, its current textual value is the empty string
    (the header shows it as []), which is no integer: after the blank
    line the loop prompts again, takes the next line when there is one,
    and stops on [EOFError] when there is none. *)
Lemma blank_on_empty_default_prompts_again :
  sym_str_value (Kconfiglib := sample) Sample.empty 4%nat = "" /\
  fst (sym_set_value (Kconfiglib := sample) 4%nat (VStr "") Sample.empty)
  = false /\
  Sample.prompt_node Sample.kconf (Sample.node_of 4) Sample.empty [""; "42"]
  = Done (mkWorld (Tab.mkState [(4%nat, VStr "42")] []) []
            [ EvInput (ItemSymbol 4)
                "INT_SYM prompt (INT_SYM, defined at Kconfig:17) [] ";
              EvInput (ItemSymbol 4)
                "INT_SYM prompt (INT_SYM, defined at Kconfig:17) [] " ]) /\
  Sample.prompt_node Sample.kconf (Sample.node_of 4) Sample.empty [""]
  = Raised EOFError
      (mkWorld Sample.empty []
         [ EvInput (ItemSymbol 4)
             "INT_SYM prompt (INT_SYM, defined at Kconfig:17) [] ";
           EvInput (ItemSymbol 4)
             "INT_SYM prompt (INT_SYM, defined at Kconfig:17) [] " ]).
Proof. repeat split; reflexivity. Qed.



(** ** Further properties of the prompter and the walk *)

Section Further.

Context {St : Type} `{B : Builtins} `{K : Kconfiglib St}.

Lemma world_eta (w : world St) : mkWorld (kst w) (stdin w) (trace w) = w.
Proof. destruct w; reflexivity. Qed.

(** At a node, either the prompter returns the world as it is and the
    node is skippable, or the trace grows. *)
Lemma node_skips_or_writes (item : Item) (prompt : option string)
  (filename : string) (linenr : Z) (children next : MenuNode)
  (w : world St) :
  let node := Node item prompt filename linenr children next in
  (do_oldconfig_for_node node w = Done w /\ skippable (kst w) node) \/
  (List.length (trace w) <
   List.length (trace (final (do_oldconfig_for_node node w))))%nat /\
  ~ skippable (kst w) node.
Proof.
  intros node. subst node.
  destruct item as [sym|choice|].
  - cbn [do_oldconfig_for_node skippable].
    destruct (item_visibility (kst w) (ItemSymbol sym) =? 0)%Z eqn:Hvis.
    { left. split; [reflexivity|]. left. exists 2%nat.
      now apply Z.eqb_eq. }
    destruct prompt as [text|].
    2:{ left. split; [reflexivity|]. left. now exists 3%nat. }
    destruct (sym_user_value (kst w) sym) as [v|] eqn:Huser.
    { left. split; [reflexivity|]. left. exists 4%nat, sym.
      split; [reflexivity|congruence]. }
    destruct (List.length (sym_assignable (kst w) sym) =? 1)%nat eqn:Hlen.
    { left. split; [reflexivity|]. left. exists 5%nat, sym.
      split; [reflexivity|now apply Nat.eqb_eq]. }
    destruct (in_y_mode_choice (kst w) sym) eqn:Hmode.
    { left. split; [reflexivity|]. left. exists 6%nat, sym.
      unfold in_y_mode_choice in Hmode.
      destruct (sym_choice sym) as [choice|]; [|discriminate].
      exists choice. split; [reflexivity|].
      split; [reflexivity|now apply Z.eqb_eq]. }
    right. split; [apply symbol_loop_length|].
    intros [[n Hn]|(choice & [=] & _)].
    destruct n as [|[|[|[|[|[|[|n]]]]]]]; cbn [skip_condition] in Hn;
      try contradiction.
    + destruct Hn as [Hn _]. now apply (Hn sym).
    + apply Z.eqb_neq in Hvis. contradiction.
    + discriminate.
    + destruct Hn as (s & [= <-] & Hn). contradiction.
    + destruct Hn as (s & [= <-] & Hn).
      apply Nat.eqb_neq in Hlen. contradiction.
    + destruct Hn as (s & choice & [= <-] & Hchoice & Htri).
      unfold in_y_mode_choice in Hmode. rewrite Hchoice in Hmode.
      apply Z.eqb_neq in Hmode. contradiction.
  - cbn [do_oldconfig_for_node skippable].
    destruct (item_visibility (kst w) (ItemChoice choice) =? 0)%Z eqn:Hvis.
    { left. split; [reflexivity|]. left. exists 2%nat.
      now apply Z.eqb_eq. }
    destruct prompt as [text|].
    2:{ left. split; [reflexivity|]. left. now exists 3%nat. }
    destruct (has_visible_user_selection (kst w) choice) eqn:Hsel.
    { left. split; [reflexivity|]. right. exists choice. auto. }
    destruct (choice_options (kst w) choice) as [|opt more] eqn:Hopts.
    { left. split; [reflexivity|]. right. exists choice. auto. }
    right. split; [apply choice_loop_length|].
    intros [[n Hn]|(c & [= <-] & [Hc|Hc])]; [|congruence|congruence].
    destruct n as [|[|[|[|[|[|[|n]]]]]]]; cbn [skip_condition] in Hn;
      try contradiction.
    + destruct Hn as [_ Hn]. now apply (Hn choice).
    + apply Z.eqb_neq in Hvis. contradiction.
    + discriminate.
    + destruct Hn as (s & [=] & _).
    + destruct Hn as (s & [=] & _).
    + destruct Hn as (s & c & [=] & _).
  - left. split; [reflexivity|]. left. exists 1%nat.
    split; intros ?; discriminate.
Qed.

Lemma print_options_prefix (st : St) (choice : Choice)
  (options : list Symbol) (i : Z) (tr : list event) :
  exists ext, snd (print_options st choice options i tr) = (tr ++ ext)%list.
Proof.
  revert i tr.
  induction options as [|sym more IH]; intros i tr; cbn [print_options].
  - exists []. cbn [snd]. now rewrite app_nil_r.
  - destruct (sym_nodes sym) as [|node0 nodes].
    { exists []. cbn [snd]. now rewrite app_nil_r. }
    destruct (loc_prompt node0) as [text|].
    2:{ exists []. cbn [snd]. now rewrite app_nil_r. }
    match goal with
    | |- context [print_options _ _ _ ?j (tr ++ ?l)%list] =>
        destruct (IH j (tr ++ l)%list) as [ext Hext];
        exists (l ++ ext)%list; rewrite Hext; now rewrite app_assoc
    end.
Qed.

Lemma symbol_loop_prefix (text : string) (sym : Symbol)
  (lines : list string) (st : St) (tr : list event) :
  exists ext,
    trace (final (symbol_loop text sym lines st tr)) = (tr ++ ext)%list.
Proof.
  revert st tr.
  induction lines as [|line rest IH]; intros st tr; cbn [symbol_loop].
  - eexists. reflexivity.
  - destruct (tristate_lookup _ _) as [v|].
    + destruct (fst (sym_set_value sym _ st)); [eexists; reflexivity|].
      match goal with
      | |- context [symbol_loop _ _ _ ?s (tr ++ ?l)%list] =>
          destruct (IH s (tr ++ l)%list) as [ext Hext];
          exists (l ++ ext)%list; rewrite Hext; now rewrite app_assoc
      end.
    + match goal with
      | |- context [symbol_loop _ _ _ ?s ((tr ++ ?l) ++ ?m)%list] =>
          destruct (IH s ((tr ++ l) ++ m)%list) as [ext Hext];
          exists (l ++ m ++ ext)%list; rewrite Hext;
          now rewrite <- !app_assoc
      end.
Qed.

Lemma choice_loop_prefix (text filename : string) (linenr : Z)
  (choice : Choice) (options : list Symbol) (lines : list string)
  (st : St) (tr : list event) :
  exists ext,
    trace (final (choice_loop text filename linenr choice options lines
                    st tr)) = (tr ++ ext)%list.
Proof.
  revert tr.
  induction lines as [|line rest IH]; intros tr; cbn [choice_loop];
    destruct (print_options_prefix st choice options 1%Z
                (tr ++ [EvPrint (choice_header text filename linenr)])%list)
      as [ext1 Hext1];
    destruct (print_options st choice options 1%Z _) as [[e|] tr2];
    cbn [snd] in Hext1; subst tr2;
    try (eexists; cbn [final trace]; rewrite <- ?app_assoc; reflexivity).
  assert (Hretry :
    exists ext,
      trace (final (choice_loop text filename linenr choice options rest st
        ((((tr ++ [EvPrint (choice_header text filename linenr)]) ++ ext1) ++
          [EvInput (ItemChoice choice) (choice_prompt options)]) ++
         [EvEprint "Bad index"])%list)) = (tr ++ ext)%list).
  { match goal with
    | |- context [choice_loop _ _ _ _ _ _ _ ?t] =>
        destruct (IH t) as [ext Hext]
    end.
    eexists. rewrite Hext, <- !app_assoc. reflexivity. }
  destruct (blank line).
  - destruct (choice_selection st choice);
      eexists; cbn [final trace]; rewrite <- !app_assoc; reflexivity.
  - destruct (int line) as [i|]; [|exact Hretry].
    destruct ((1 <=? i)%Z && (i <=? Z.of_nat (List.length options))%Z);
      [|exact Hretry].
    destruct (nth_error options (Z.to_nat (i - 1)));
      eexists; cbn [final trace]; rewrite <- !app_assoc; reflexivity.
Qed.

Lemma node_prefix (node : MenuNode) (w : world St) :
  exists ext,
    trace (final (do_oldconfig_for_node node w)) = (trace w ++ ext)%list.
Proof.
  assert (Hsame : exists ext, trace w = (trace w ++ ext)%list)
    by (exists []; now rewrite app_nil_r).
  destruct node as [|item prompt filename linenr children next];
    [exact Hsame|].
  destruct item as [sym|choice|]; cbn [do_oldconfig_for_node];
    [| |exact Hsame];
    (destruct (item_visibility _ _ =? 0)%Z; [exact Hsame|]);
    (destruct prompt as [text|]; [|exact Hsame]).
  - destruct (sym_user_value (kst w) sym); [exact Hsame|].
    destruct (List.length (sym_assignable (kst w) sym) =? 1)%nat;
      [exact Hsame|].
    destruct (in_y_mode_choice (kst w) sym); [exact Hsame|].
    apply symbol_loop_prefix.
  - destruct (has_visible_user_selection (kst w) choice); [exact Hsame|].
    destruct (choice_options (kst w) choice); [exact Hsame|].
    apply choice_loop_prefix.
Qed.

(** X1: the prompter returns with the world untouched exactly at the
    skippable nodes; at every other node it writes to the console: the
    trace it leaves is the trace it found with at least one more entry,
    whether it returns or raises. *)
Theorem node_untouched_iff_skippable (node : MenuNode) (w : world St) :
  (do_oldconfig_for_node node w = Done w <-> skippable (kst w) node) /\
  (node <> NoNode -> ~ skippable (kst w) node ->
   exists e ext,
     trace (final (do_oldconfig_for_node node w)) =
     (trace w ++ e :: ext)%list).
Proof.
  destruct node as [|item prompt filename linenr children next].
  - split; [|contradiction].
    split; [discriminate|contradiction].
  - destruct (node_skips_or_writes item prompt filename linenr children next w)
      as [[Hdone Hskip]|[Hlt Hnot]].
    + split; [split; auto|]. intros _ Hnot. contradiction.
    + split.
      * split; [|contradiction].
        intros Hdone. rewrite Hdone in Hlt. simpl in Hlt. lia.
      * intros _ _.
        destruct (node_prefix
                    (Node item prompt filename linenr children next) w)
          as [[|e ext] Hext].
        -- rewrite Hext, app_nil_r in Hlt. lia.
        -- eauto.
Qed.

Lemma walk_trace_le (tree : MenuNode) (w : world St) :
  (List.length (trace w) <=
   List.length (trace (final (do_oldconfig tree w))))%nat.
Proof.
  revert w.
  induction tree as [|item prompt filename linenr children IHc next IHn];
    intros w; cbn [do_oldconfig]; [simpl; lia|].
  destruct (node_skips_or_writes item prompt filename linenr children next w)
    as [[Hdone _]|[Hlt _]].
  - rewrite Hdone. cbn [bind].
    replace (match children with
             | NoNode => Done w
             | Node _ _ _ _ _ _ => do_oldconfig children w
             end) with (do_oldconfig children w)
      by (destruct children; reflexivity).
    pose proof (IHc w) as Hc.
    destruct (do_oldconfig children w) as [w2|e2 w2]; cbn [bind final] in *.
    + pose proof (IHn w2). lia.
    + exact Hc.
  - destruct (do_oldconfig_for_node _ w) as [w1|e1 w1];
      cbn [bind final] in *; [|lia].
    replace (match children with
             | NoNode => Done w1
             | Node _ _ _ _ _ _ => do_oldconfig children w1
             end) with (do_oldconfig children w1)
      by (destruct children; reflexivity).
    pose proof (IHc w1) as Hc.
    destruct (do_oldconfig children w1) as [w2|e2 w2]; cbn [bind final] in *.
    + pose proof (IHn w2). lia.
    + lia.
Qed.

Lemma quiet_walk (tree : MenuNode) (w : world St) :
  List.length (trace (final (do_oldconfig tree w))) = List.length (trace w) ->
  do_oldconfig tree w = Done w /\ Forall (skippable (kst w)) (preorder tree).
Proof.
  revert w.
  induction tree as [|item prompt filename linenr children IHc next IHn];
    intros w; cbn [do_oldconfig preorder]; [split; [reflexivity|constructor]|].
  destruct (node_skips_or_writes item prompt filename linenr children next w)
    as [[Hdone Hskip]|[Hlt _]].
  - rewrite Hdone. cbn [bind].
    replace (match children with
             | NoNode => Done w
             | Node _ _ _ _ _ _ => do_oldconfig children w
             end) with (do_oldconfig children w)
      by (destruct children; reflexivity).
    pose proof (walk_trace_le children w) as Hle.
    destruct (do_oldconfig children w) as [w2|e2 w2] eqn:Hchildren;
      cbn [bind final] in *.
    + intros Hsame.
      pose proof (walk_trace_le next w2) as Hle2.
      destruct (IHc w) as [Hc Hall]; [rewrite Hchildren; simpl; lia|].
      rewrite Hchildren in Hc. injection Hc as ->.
      destruct (IHn w Hsame) as [Hn Hall2].
      split; [exact Hn|].
      constructor; [exact Hskip|]. apply Forall_app. auto.
    + intros Hsame.
      destruct (IHc w) as [Hc _]; [rewrite Hchildren; exact Hsame|].
      rewrite Hchildren in Hc. discriminate.
  - intros Hsame. exfalso.
    destruct (do_oldconfig_for_node _ w) as [w1|e1 w1];
      cbn [bind final] in *; [|lia].
    replace (match children with
             | NoNode => Done w1
             | Node _ _ _ _ _ _ => do_oldconfig children w1
             end) with (do_oldconfig children w1) in Hsame
      by (destruct children; reflexivity).
    pose proof (walk_trace_le children w1) as Hle.
    destruct (do_oldconfig children w1) as [w2|e2 w2];
      cbn [bind final] in *; [|lia].
    pose proof (walk_trace_le next w2). lia.
Qed.

Lemma skippable_walk (tree : MenuNode) (w : world St) :
  Forall (skippable (kst w)) (preorder tree) -> do_oldconfig tree w = Done w.
Proof.
  induction tree as [|item prompt filename linenr children IHc next IHn];
    cbn [do_oldconfig preorder]; [reflexivity|].
  intros Hall. inversion Hall as [|? ? Hskip Hrest]; subst.
  apply Forall_app in Hrest. destruct Hrest as [Hchildren Hnext].
  destruct (node_skips_or_writes item prompt filename linenr children next w)
    as [[Hdone _]|[_ Hnot]]; [|contradiction].
  rewrite Hdone. cbn [bind].
  replace (match children with
           | NoNode => Done w
           | Node _ _ _ _ _ _ => do_oldconfig children w
           end) with (do_oldconfig children w)
    by (destruct children; reflexivity).
  rewrite (IHc Hchildren). cbn [bind]. exact (IHn Hnext).
Qed.

(** X2: a walk returns with the world untouched exactly when every node
    of the tree is skippable in the state the walk starts in (the second
    run of the header: everything is up to date). *)
Theorem walk_untouched_iff_all_skippable (tree : MenuNode) (w : world St) :
  do_oldconfig tree w = Done w <->
  Forall (skippable (kst w)) (preorder tree).
Proof.
  split.
  - intros Hdone. apply quiet_walk. now rewrite Hdone.
  - apply skippable_walk.
Qed.

(** *** The state changes through the setter only *)

Section SetterInvariant.

Variable P : St -> Prop.
Hypothesis P_kept :
  forall sym v st, P st -> P (snd (sym_set_value sym v st)).

Lemma symbol_loop_keeps (text : string) (sym : Symbol)
  (lines : list string) (st : St) (tr : list event) :
  P st -> P (kst (final (symbol_loop text sym lines st tr))).
Proof.
  revert st tr.
  induction lines as [|line rest IH]; intros st tr HP; cbn [symbol_loop].
  - exact HP.
  - destruct (tristate_lookup _ _) as [v|]; [|now apply IH].
    destruct (fst (sym_set_value sym _ st)).
    + simpl. now apply P_kept.
    + apply IH. now apply P_kept.
Qed.

Lemma choice_loop_keeps (text filename : string) (linenr : Z)
  (choice : Choice) (options : list Symbol) (lines : list string)
  (st : St) (tr : list event) :
  P st ->
  P (kst (final (choice_loop text filename linenr choice options lines
                   st tr))).
Proof.
  intros HP. revert tr.
  induction lines as [|line rest IH]; intros tr; cbn [choice_loop];
    destruct (print_options st choice options 1%Z _) as [[e|] tr2];
    try exact HP.
  destruct (blank line).
  - destruct (choice_selection st choice); simpl; [now apply P_kept|exact HP].
  - destruct (int line) as [i|]; [|apply IH].
    destruct ((1 <=? i)%Z && (i <=? Z.of_nat (List.length options))%Z);
      [|apply IH].
    destruct (nth_error options (Z.to_nat (i - 1))); simpl;
      [now apply P_kept|exact HP].
Qed.

Lemma node_keeps (node : MenuNode) (w : world St) :
  P (kst w) -> P (kst (final (do_oldconfig_for_node node w))).
Proof.
  intros HP.
  destruct node as [|item prompt filename linenr children next];
    [exact HP|].
  destruct item as [sym|choice|]; cbn [do_oldconfig_for_node];
    [| |exact HP];
    (destruct (item_visibility _ _ =? 0)%Z; [exact HP|]);
    (destruct prompt as [text|]; [|exact HP]).
  - destruct (sym_user_value (kst w) sym); [exact HP|].
    destruct (List.length (sym_assignable (kst w) sym) =? 1)%nat;
      [exact HP|].
    destruct (in_y_mode_choice (kst w) sym); [exact HP|].
    now apply symbol_loop_keeps.
  - destruct (has_visible_user_selection (kst w) choice); [exact HP|].
    destruct (choice_options (kst w) choice); [exact HP|].
    now apply choice_loop_keeps.
Qed.

Lemma walk_keeps (tree : MenuNode) (w : world St) :
  P (kst w) -> P (kst (final (do_oldconfig tree w))).
Proof.
  revert w.
  induction tree as [|item prompt filename linenr children IHc next IHn];
    intros w HP; cbn [do_oldconfig]; [exact HP|].
  pose proof (node_keeps (Node item prompt filename linenr children next) w HP)
    as HP1.
  destruct (do_oldconfig_for_node _ w) as [w1|e1 w1]; cbn [bind final] in *;
    [|exact HP1].
  replace (match children with
           | NoNode => Done w1
           | Node _ _ _ _ _ _ => do_oldconfig children w1
           end) with (do_oldconfig children w1)
    by (destruct children; reflexivity).
  pose proof (IHc w1 HP1) as HP2.
  destruct (do_oldconfig children w1) as [w2|e2 w2]; cbn [bind final] in *;
    [|exact HP2].
  now apply IHn.
Qed.

End SetterInvariant.

(** X3: the walk changes the configuration through the setter only: a
    property of the state that no call of the setter can break holds
    after the walk, whether the walk completes or stops on an exception,
    when it held before. *)
Theorem walk_keeps_setter_invariants (P : St -> Prop) (tree : MenuNode)
  (w : world St) :
  (forall sym v st, P st -> P (snd (sym_set_value sym v st))) ->
  P (kst w) ->
  P (kst (final (do_oldconfig tree w))).
Proof.
  intros Hkept HP. now apply walk_keeps.
Qed.

(** *** One prompt for every line read *)

Lemma input_count_snoc (tr : list event) (e : event) :
  input_count (tr ++ [e]) =
  (input_count tr + match e with EvInput _ _ => 1 | _ => 0 end)%nat.
Proof.
  unfold input_count. rewrite filter_app, length_app.
  destruct e; reflexivity.
Qed.

Lemma print_options_inputs (st : St) (choice : Choice)
  (options : list Symbol) (i : Z) (tr : list event) :
  input_count (snd (print_options st choice options i tr)) = input_count tr.
Proof.
  revert i tr.
  induction options as [|sym more IH]; intros i tr; cbn [print_options].
  - reflexivity.
  - destruct (sym_nodes sym) as [|node0 nodes]; [reflexivity|].
    destruct (loc_prompt node0) as [text|]; [|reflexivity].
    rewrite IH, input_count_snoc. simpl. lia.
Qed.

Lemma accounted_refl (w : world St) : accounted w (Done w).
Proof.
  exists []. simpl. split; [reflexivity|lia].
Qed.

Lemma accounted_raised (w : world St) (e : exn) :
  e <> EOFError -> accounted w (Raised e w).
Proof.
  intros He. exists []. simpl. split; [reflexivity|].
  destruct e; try contradiction; lia.
Qed.

Lemma accounted_step (st st1 : St) (line : string) (rest : list string)
  (tr tr1 : list event) (o : outcome St) :
  input_count tr1 = S (input_count tr) ->
  accounted (mkWorld st1 rest tr1) o ->
  accounted (mkWorld st (line :: rest) tr) o.
Proof.
  intros Hcount (used & Hused & Hinputs). cbn [stdin trace] in *.
  exists (line :: used). cbn [stdin trace]. split.
  - simpl. now rewrite Hused.
  - rewrite Hinputs, Hcount. simpl. lia.
Qed.

Lemma accounted_bind (w : world St) (o : outcome St)
  (k : world St -> outcome St) :
  accounted w o ->
  (forall w1, o = Done w1 -> accounted w1 (k w1)) ->
  accounted w (o ;; k).
Proof.
  intros (used & Hused & Hinputs) Hk.
  destruct o as [w1|e w1]; cbn [bind].
  - destruct (Hk w1 eq_refl) as (used2 & Hused2 & Hinputs2).
    cbn [final eof_prompt] in *.
    exists (used ++ used2)%list. split.
    + now rewrite Hused, Hused2, app_assoc.
    + rewrite Hinputs2, Hinputs, length_app. lia.
  - exists used. auto.
Qed.

Lemma symbol_loop_accounted (text : string) (sym : Symbol)
  (lines : list string) (st : St) (tr : list event) :
  accounted (mkWorld st lines tr) (symbol_loop text sym lines st tr).
Proof.
  revert st tr.
  induction lines as [|line rest IH]; intros st tr; cbn [symbol_loop].
  - exists []. cbn [stdin trace final eof_prompt app List.length]. split; [reflexivity|].
    rewrite input_count_snoc. lia.
  - destruct (tristate_lookup _ _) as [v|].
    + destruct (fst (sym_set_value sym _ st)).
      * eapply accounted_step; [|apply accounted_refl].
        cbn [stdin trace final eof_prompt app List.length]. rewrite input_count_snoc. lia.
      * eapply accounted_step; [|apply IH].
        rewrite input_count_snoc. lia.
    + eapply accounted_step; [|apply IH].
      rewrite !input_count_snoc. simpl. lia.
Qed.

Lemma choice_loop_accounted (text filename : string) (linenr : Z)
  (choice : Choice) (options : list Symbol) (lines : list string)
  (st : St) (tr : list event) :
  accounted (mkWorld st lines tr)
    (choice_loop text filename linenr choice options lines st tr).
Proof.
  revert tr.
  induction lines as [|line rest IH]; intros tr; cbn [choice_loop];
    pose proof (print_options_inputs st choice options 1%Z
                  (tr ++ [EvPrint (choice_header text filename linenr)])%list)
      as Hprint;
    pose proof (print_options_exn st choice options 1%Z
                  (tr ++ [EvPrint (choice_header text filename linenr)])%list)
      as Hexn;
    rewrite input_count_snoc in Hprint; simpl in Hprint;
    destruct (print_options st choice options 1%Z _) as [[e|] tr2];
    cbn [fst snd] in Hprint, Hexn.
  - exists []. cbn [stdin trace final eof_prompt app List.length]. split; [reflexivity|].
    destruct (Hexn e eq_refl) as [-> | ->]; simpl; lia.
  - exists []. cbn [stdin trace final eof_prompt app List.length]. split; [reflexivity|].
    rewrite input_count_snoc. simpl. lia.
  - exists []. cbn [stdin trace final eof_prompt app List.length]. split; [reflexivity|].
    destruct (Hexn e eq_refl) as [-> | ->]; simpl; lia.
  - assert (Hretry :
      accounted (mkWorld st (line :: rest) tr)
        (choice_loop text filename linenr choice options rest st
           ((tr2 ++ [EvInput (ItemChoice choice) (choice_prompt options)]) ++
            [EvEprint "Bad index"])%list)).
    { eapply accounted_step; [|apply IH].
      rewrite !input_count_snoc. simpl. lia. }
    assert (Hstep : forall st1,
      accounted (mkWorld st (line :: rest) tr)
        (Done (mkWorld st1 rest
                 (tr2 ++ [EvInput (ItemChoice choice)
                            (choice_prompt options)])%list))).
    { intros st1. eapply accounted_step; [|apply accounted_refl].
      cbn [stdin trace final eof_prompt app List.length]. rewrite input_count_snoc. simpl. lia. }
    assert (Hraise : forall e1, e1 <> EOFError ->
      accounted (mkWorld st (line :: rest) tr)
        (Raised e1 (mkWorld st rest
                      (tr2 ++ [EvInput (ItemChoice choice)
                                 (choice_prompt options)])%list))).
    { intros e1 He1. eapply accounted_step; [|now apply accounted_raised].
      cbn [stdin trace final eof_prompt app List.length]. rewrite input_count_snoc. simpl. lia. }
    destruct (blank line).
    + destruct (choice_selection st choice); [apply Hstep|].
      apply Hraise. discriminate.
    + destruct (int line) as [i|]; [|exact Hretry].
      destruct ((1 <=? i)%Z && (i <=? Z.of_nat (List.length options))%Z);
        [|exact Hretry].
      destruct (nth_error options (Z.to_nat (i - 1))); [apply Hstep|].
      apply Hraise. discriminate.
Qed.

Lemma node_accounted (node : MenuNode) (w : world St) :
  accounted w (do_oldconfig_for_node node w).
Proof.
  destruct node as [|item prompt filename linenr children next].
  - apply accounted_raised. discriminate.
  - destruct item as [sym|choice|]; cbn [do_oldconfig_for_node];
      [| |apply accounted_refl];
      (destruct (item_visibility _ _ =? 0)%Z; [apply accounted_refl|]);
      (destruct prompt as [text|]; [|apply accounted_refl]).
    + destruct (sym_user_value (kst w) sym); [apply accounted_refl|].
      destruct (List.length (sym_assignable (kst w) sym) =? 1)%nat;
        [apply accounted_refl|].
      destruct (in_y_mode_choice (kst w) sym); [apply accounted_refl|].
      rewrite <- (world_eta w) at 1. apply symbol_loop_accounted.
    + destruct (has_visible_user_selection (kst w) choice);
        [apply accounted_refl|].
      destruct (choice_options (kst w) choice) as [|opt more];
        [apply accounted_refl|].
      rewrite <- (world_eta w) at 1. apply choice_loop_accounted.
Qed.

(** X4: the walk reads its lines in order and only on demand.  What is
    left of the input afterwards is a suffix of what there was, and the
    number of prompts written is the number of lines read, plus one for
    the prompt that met the end of the input when the walk stopped on
    [EOFError]. *)
Theorem walk_reads_one_line_per_prompt (tree : MenuNode) (w : world St) :
  exists used,
    stdin w = (used ++ stdin (final (do_oldconfig tree w)))%list /\
    input_count (trace (final (do_oldconfig tree w))) =
    (input_count (trace w) + List.length used +
     eof_prompt (do_oldconfig tree w))%nat.
Proof.
  change (accounted w (do_oldconfig tree w)).
  revert w.
  induction tree as [|item prompt filename linenr children IHc next IHn];
    intros w; cbn [do_oldconfig]; [apply accounted_refl|].
  apply accounted_bind; [apply node_accounted|].
  intros w1 _.
  apply accounted_bind; [|intros w2 _; apply IHn].
  destruct children; [apply accounted_refl|apply IHc].
Qed.

(** *** The loops end at the first line they can take *)

Lemma prompts_for_own_input (sym : Symbol) (tr : list event)
  (text : string) :
  prompts_for (ItemSymbol sym) (tr ++ [EvInput (ItemSymbol sym) text]) =
  S (prompts_for (ItemSymbol sym) tr).
Proof.
  rewrite prompts_for_snoc. cbn [item_eqb]. rewrite Nat.eqb_refl. lia.
Qed.

Lemma symbol_loop_rejected_line (text : string) (sym : Symbol)
  (line : string) (st : St) (tr : list event) :
  rejection_is_silent ->
  symbol_accepts st sym line = false ->
  exists tr1,
    prompts_for (ItemSymbol sym) tr1 = S (prompts_for (ItemSymbol sym) tr) /\
    forall rest,
      symbol_loop text sym (line :: rest) st tr =
      symbol_loop text sym rest st tr1.
Proof.
  intros Hsilent Hrejected.
  unfold symbol_accepts, symbol_candidate in Hrejected.
  destruct (tristate_lookup (sym_type_of st sym)
              (if blank line then sym_str_value st sym else line))
    as [v|] eqn:Hlookup; cbn [option_map] in Hrejected.
  - exists (tr ++ [EvInput (ItemSymbol sym) (symbol_prompt text st sym)])%list.
    split; [apply prompts_for_own_input|].
    intros rest. cbn [symbol_loop].
    rewrite Hlookup, Hrejected, (Hsilent _ _ _ Hrejected). reflexivity.
  - exists ((tr ++ [EvInput (ItemSymbol sym) (symbol_prompt text st sym)]) ++
            [EvEprint "Invalid tristate value"])%list.
    split.
    + rewrite prompts_for_snoc, prompts_for_own_input. simpl. lia.
    + intros rest. cbn [symbol_loop]. rewrite Hlookup. reflexivity.
Qed.

(** X5: with a setter that leaves the state alone when it rejects, the
    symbol loop ends at the first line the setter takes: the lines before
    it cost one prompt each and leave nothing behind, the lines after it
    are not read.  When no line is taken, the loop ends on [EOFError] in
    the state it started in. *)
Theorem symbol_loop_ends_at_first_accepted
  (text : string) (sym : Symbol) (rejected : list string) (st : St)
  (tr : list event) :
  rejection_is_silent ->
  Forall (fun line => symbol_accepts st sym line = false) rejected ->
  (forall good rest v,
     symbol_candidate st sym good = Some v ->
     fst (sym_set_value sym v st) = true ->
     exists tr',
       symbol_loop text sym (rejected ++ good :: rest) st tr =
       Done (mkWorld (snd (sym_set_value sym v st)) rest tr') /\
       prompts_for (ItemSymbol sym) tr' =
       (prompts_for (ItemSymbol sym) tr + List.length rejected + 1)%nat) /\
  (exists tr',
     symbol_loop text sym rejected st tr = Raised EOFError (mkWorld st [] tr')
     /\ prompts_for (ItemSymbol sym) tr' =
        (prompts_for (ItemSymbol sym) tr + List.length rejected + 1)%nat).
Proof.
  intros Hsilent Hall. revert tr.
  induction Hall as [|line rejected Hline _ IH]; intros tr.
  - split.
    + intros good rest v Hcandidate Haccepted.
      exists (tr ++ [EvInput (ItemSymbol sym) (symbol_prompt text st sym)])%list.
      split; [|rewrite prompts_for_own_input; simpl; lia].
      unfold symbol_candidate in Hcandidate.
      cbn [app symbol_loop].
      destruct (tristate_lookup _ _) as [v0|]; [|discriminate].
      injection Hcandidate as <-. rewrite Haccepted. reflexivity.
    + exists (tr ++ [EvInput (ItemSymbol sym) (symbol_prompt text st sym)])%list.
      split; [reflexivity|rewrite prompts_for_own_input; simpl; lia].
  - destruct (symbol_loop_rejected_line text sym line st tr Hsilent Hline)
      as (tr1 & Hcount & Hstep).
    destruct (IH tr1) as [IHgood IHeof].
    split.
    + intros good rest v Hcandidate Haccepted.
      destruct (IHgood good rest v Hcandidate Haccepted) as (tr' & Hrun & Hn).
      exists tr'. cbn [app]. rewrite Hstep. split; [exact Hrun|].
      rewrite Hn, Hcount. simpl. lia.
    + destruct IHeof as (tr' & Hrun & Hn).
      exists tr'. rewrite Hstep. split; [exact Hrun|].
      rewrite Hn, Hcount. simpl. lia.
Qed.

Lemma report_count_snoc (text : string) (tr : list event) (e : event) :
  report_count text (tr ++ [e]) =
  (report_count text tr +
   match e with
   | EvEprint line => if String.eqb line text then 1 else 0
   | _ => 0
   end)%nat.
Proof.
  unfold report_count. rewrite filter_app, length_app. f_equal.
  destruct e as [who p|line|line]; simpl; try reflexivity.
  destruct (String.eqb line text); reflexivity.
Qed.

Lemma print_options_reports (text : string) (st : St) (choice : Choice)
  (options : list Symbol) (i : Z) (tr : list event) :
  report_count text (snd (print_options st choice options i tr)) =
  report_count text tr.
Proof.
  revert i tr.
  induction options as [|sym more IH]; intros i tr; cbn [print_options].
  - reflexivity.
  - destruct (sym_nodes sym) as [|node0 nodes]; [reflexivity|].
    destruct (loc_prompt node0) as [p|]; [|reflexivity].
    rewrite IH, report_count_snoc. simpl. lia.
Qed.

Lemma choice_loop_bad_line (text filename : string) (linenr : Z)
  (choice : Choice) (options : list Symbol) (line : string) (st : St)
  (tr : list event) :
  Forall has_first_prompt options ->
  bad_index options line = true ->
  exists tr1,
    report_count "Bad index" tr1 = S (report_count "Bad index" tr) /\
    input_count tr1 = S (input_count tr) /\
    forall rest,
      choice_loop text filename linenr choice options (line :: rest) st tr =
      choice_loop text filename linenr choice options rest st tr1.
Proof.
  intros Hall Hbad.
  unfold bad_index in Hbad. apply andb_prop in Hbad.
  destruct Hbad as [Hline Hbad]. apply negb_true_iff in Hline.
  pose proof (proj2 (print_options_ok_iff st choice options 1%Z
                       (tr ++ [EvPrint (choice_header text filename
                                          linenr)])%list) Hall) as Hok.
  pose proof (print_options_reports "Bad index" st choice options 1%Z
                (tr ++ [EvPrint (choice_header text filename linenr)])%list)
    as Hreports.
  pose proof (print_options_inputs st choice options 1%Z
                (tr ++ [EvPrint (choice_header text filename linenr)])%list)
    as Hinputs.
  rewrite report_count_snoc in Hreports.
  rewrite input_count_snoc in Hinputs.
  destruct (print_options st choice options 1%Z
              (tr ++ [EvPrint (choice_header text filename linenr)])%list)
    as [[e|] tr2] eqn:Hprint; cbn [fst snd] in *; [discriminate|].
  exists ((tr2 ++ [EvInput (ItemChoice choice) (choice_prompt options)]) ++
          [EvEprint "Bad index"])%list.
  split; [rewrite !report_count_snoc; simpl; lia|].
  split; [rewrite !input_count_snoc; simpl; lia|].
  intros rest. cbn [choice_loop]. rewrite Hprint, Hline.
  destruct (int line) as [i|]; [|reflexivity].
  apply negb_true_iff in Hbad. rewrite Hbad. reflexivity.
Qed.

(** X6: in a choice whose options display, lines that are not blank and
    give no index within 1 .. count(options) are passed over one by one:
    each gets one prompt and one "Bad index", the state stays, and the
    loop goes on with the lines after them as if it had just started. *)
Theorem choice_loop_passes_over_bad_lines
  (text filename : string) (linenr : Z) (choice : Choice)
  (options : list Symbol) (bad rest : list string) (st : St)
  (tr : list event) :
  Forall has_first_prompt options ->
  Forall (fun line => bad_index options line = true) bad ->
  exists tr',
    choice_loop text filename linenr choice options (bad ++ rest) st tr =
    choice_loop text filename linenr choice options rest st tr' /\
    report_count "Bad index" tr' =
    (report_count "Bad index" tr + List.length bad)%nat /\
    input_count tr' = (input_count tr + List.length bad)%nat.
Proof.
  intros Hall Hbad. revert tr.
  induction Hbad as [|line bad Hline _ IH]; intros tr.
  - exists tr. cbn [app List.length]. repeat split; lia.
  - destruct (choice_loop_bad_line text filename linenr choice options line
                st tr Hall Hline) as (tr1 & Hreports & Hinputs & Hstep).
    destruct (IH tr1) as (tr' & Hrun & Hreports' & Hinputs').
    exists tr'. cbn [app List.length]. rewrite Hstep.
    split; [exact Hrun|]. split; lia.
Qed.

(** *** No rejected answer raises *)



End Further.

(** ** Lines of ASCII characters *)

(** The two properties below are about what [int] does with particular
    lines; they are stated for [py_int]. *)

Section AsciiLines.

Context {St : Type} `{K : Kconfiglib St}.

(** *** The number beside an option *)

Ltac eval_digit :=
  match goal with
  | |- context [digit_val ?c] =>
      let v := eval vm_compute in (digit_val c) in
      change (digit_val c) with v; cbv iota
  end.

Lemma parse_digits_after_digit (d : Decimal.uint) (acc : Z) :
  parse_digits (NilEmpty.string_of_uint d) acc true =
  Some (digits_value d acc).
Proof.
  revert acc.
  induction d; intros acc; cbn [NilEmpty.string_of_uint digits_value];
    [reflexivity|..];
    cbn [parse_digits]; eval_digit; rewrite IHd; f_equal; f_equal; lia.
Qed.

Lemma parse_digits_numeral (d : Decimal.uint) :
  d <> Decimal.Nil ->
  parse_digits (NilEmpty.string_of_uint d) 0 false =
  Some (digits_value d 0).
Proof.
  intros Hd.
  destruct d; [contradiction|..];
    cbn [NilEmpty.string_of_uint digits_value parse_digits]; eval_digit;
    rewrite parse_digits_after_digit; reflexivity.
Qed.

Lemma digits_value_acc (d : Decimal.uint) (p : positive) :
  digits_value d (Zpos p) = Zpos (Pos.of_uint_acc d p).
Proof.
  revert p.
  induction d; intros p; cbn [digits_value Pos.of_uint_acc];
    [reflexivity|..];
    match goal with
    | |- digits_value _ ?z = Zpos (Pos.of_uint_acc _ ?q) =>
        replace z with (Zpos q) by lia
    end; apply IHd.
Qed.

Lemma digits_value_of_uint (d : Decimal.uint) :
  digits_value d 0 = Z.of_N (Pos.of_uint d).
Proof.
  induction d; cbn [digits_value Pos.of_uint]; [reflexivity|exact IHd|..];
    cbn [Z.mul Z.add]; rewrite digits_value_acc; reflexivity.
Qed.

Lemma to_uint_not_nil (p : positive) : Pos.to_uint p <> Decimal.Nil.
Proof.
  intros Hnil.
  pose proof (DecimalPos.Unsigned.of_to p) as Hround.
  rewrite Hnil in Hround. discriminate.
Qed.

Lemma digits_value_to_uint (p : positive) :
  digits_value (Pos.to_uint p) 0 = Zpos p.
Proof.
  rewrite digits_value_of_uint, DecimalPos.Unsigned.of_to. reflexivity.
Qed.

Lemma lstrip_numeral (d : Decimal.uint) :
  lstrip (NilEmpty.string_of_uint d) = NilEmpty.string_of_uint d.
Proof. destruct d; reflexivity. Qed.

Lemma rstrip_numeral (d : Decimal.uint) :
  rstrip (NilEmpty.string_of_uint d) = NilEmpty.string_of_uint d.
Proof.
  induction d; cbn [NilEmpty.string_of_uint rstrip]; [reflexivity|..];
    rewrite IHd; destruct (NilEmpty.string_of_uint d); reflexivity.
Qed.

Lemma py_int_numeral (d : Decimal.uint) :
  d <> Decimal.Nil ->
  py_int (NilEmpty.string_of_uint d) = Some (digits_value d 0).
Proof.
  intros Hd. unfold py_int.
  rewrite lstrip_numeral, rstrip_numeral.
  rewrite <- (parse_digits_numeral d Hd).
  destruct d; [contradiction|..]; reflexivity.
Qed.

Lemma py_int_minus_numeral (d : Decimal.uint) :
  d <> Decimal.Nil ->
  py_int (String "-" (NilEmpty.string_of_uint d)) =
  Some (- digits_value d 0)%Z.
Proof.
  intros Hd. unfold py_int.
  cbn [lstrip]. change (int_space "-") with false. cbn iota.
  cbn [rstrip]. rewrite rstrip_numeral.
  destruct (NilEmpty.string_of_uint d) eqn:Hs.
  - destruct d; try contradiction; discriminate.
  - rewrite <- Hs. change (int_space "-") with false.
    rewrite (parse_digits_numeral d Hd). reflexivity.
Qed.

Lemma numeral_not_nil (d : Decimal.uint) :
  d <> Decimal.Nil ->
  NilZero.string_of_uint d = NilEmpty.string_of_uint d.
Proof.
  destruct d; [contradiction|..]; reflexivity.
Qed.

(** [int] reads back what ["{}".format] writes for an integer. *)
Lemma py_int_str_of_int (n : Z) : py_int (str_of_int n) = Some n.
Proof.
  unfold str_of_int.
  destruct n as [|p|p]; [reflexivity|..];
    cbn [Z.to_int NilZero.string_of_int];
    pose proof (to_uint_not_nil p) as Hnil;
    rewrite (numeral_not_nil _ Hnil).
  - rewrite (py_int_numeral _ Hnil), digits_value_to_uint. reflexivity.
  - rewrite (py_int_minus_numeral _ Hnil), digits_value_to_uint.
    reflexivity.
Qed.

Lemma str_of_int_not_blank (n : Z) : blank (str_of_int n) = false.
Proof.
  pose proof (py_int_str_of_int n) as Hround.
  destruct (str_of_int n); [discriminate|reflexivity].
Qed.

Lemma nth_error_numbered {A : Type} (l : list A) (first k : nat) (a : A) :
  nth_error l k = Some a ->
  nth_error (combine (seq first (List.length l)) l) k
  = Some ((first + k)%nat, a).
Proof.
  revert first k.
  induction l as [|b l IH]; intros first k; [destruct k; discriminate|].
  destruct k as [|k]; cbn [nth_error List.length seq combine].
  - intros [= <-]. now rewrite Nat.add_0_r.
  - intros Hnth. rewrite (IH (S first) k Hnth). f_equal. f_equal. lia.
Qed.

(** X7: the number shown beside an option is the number to type for it.
    In a choice whose options display, the k-th line of the list carries
    the number k (counted from 1), and a line with that number, as
    written by the display, ends the loop with the top level assigned to
    the option of that line. *)
Theorem displayed_number_selects_its_option
  (text filename : string) (linenr : Z) (choice : Choice)
  (options : list Symbol) (k : nat) (sym : Symbol) (rest : list string)
  (st : St) (tr : list event) :
  Forall has_first_prompt options ->
  nth_error options k = Some sym ->
  nth_error (presented st choice options) k =
  Some (EvPrint (option_line (if is_selection st choice sym then ">" else " ")
                   (Z.of_nat (S k)) (first_prompt_text sym) (sym_name sym)))
  /\
  exists tr',
    choice_loop text filename linenr choice options
      (str_of_int (Z.of_nat (S k)) :: rest) st tr =
    Done (mkWorld (snd (sym_set_value sym (VTri 2) st)) rest tr').
Proof.
  intros Hall Hnth. split.
  - unfold presented, presented_from.
    rewrite nth_error_map, (nth_error_numbered _ _ _ _ Hnth). reflexivity.
  - assert (Hlen : (k < List.length options)%nat)
      by (apply nth_error_Some; congruence).
    cbn [choice_loop].
    rewrite (print_options_presents st choice options 1 _ Hall).
    rewrite str_of_int_not_blank, py_int_str_of_int.
    assert (Hlow : (1 <=? Z.of_nat (S k))%Z = true)
      by (apply Z.leb_le; lia).
    assert (Hhigh :
      (Z.of_nat (S k) <=? Z.of_nat (List.length options))%Z = true)
      by (apply Z.leb_le; lia).
    rewrite Hlow, Hhigh. cbn [andb].
    replace (Z.to_nat (Z.of_nat (S k) - 1)) with k by lia.
    rewrite Hnth. eauto.
Qed.

(** *** Lines of white space *)

Lemma all_space_lstrip (s : string) :
  all_space s = true -> all_space (lstrip s) = true.
Proof.
  induction s as [|a r IH]; cbn [all_space lstrip]; [reflexivity|].
  intros Hspace. destruct (int_space a); [|exact Hspace].
  apply andb_prop in Hspace. now apply IH.
Qed.

Lemma all_space_rstrip (s : string) :
  all_space s = true -> all_space (rstrip s) = true.
Proof.
  induction s as [|a r IH]; cbn [all_space rstrip]; [reflexivity|].
  intros Hspace. apply andb_prop in Hspace. destruct Hspace as [Ha Hr].
  specialize (IH Hr).
  destruct (rstrip r) as [|b r'].
  - destruct (int_space a); cbn [all_space]; [reflexivity|].
    now rewrite Ha.
  - cbn [all_space] in *. now rewrite Ha.
Qed.

Lemma space_is_no_numeral (t : string) :
  all_space t = true ->
  match t with
  | String "+" r => parse_digits r 0%Z false
  | String "-" r => option_map Z.opp (parse_digits r 0%Z false)
  | _ => parse_digits t 0%Z false
  end = None.
Proof.
  destruct t as [|a r]; [reflexivity|].
  cbn [all_space]. intros Hspace.
  apply andb_prop in Hspace. destruct Hspace as [Ha _].
  destruct a as [[|] [|] [|] [|] [|] [|] [|] [|]];
    try discriminate Ha; reflexivity.
Qed.

Lemma py_int_all_space (s : string) : all_space s = true -> py_int s = None.
Proof.
  intros Hspace. unfold py_int.
  apply space_is_no_numeral.
  now apply all_space_rstrip, all_space_lstrip.
Qed.

Lemma STR_TO_TRI_all_space (s : string) :
  all_space s = true -> STR_TO_TRI s = None.
Proof.
  intros Hspace. unfold STR_TO_TRI.
  destruct (String.eqb_spec s "n") as [->|_]; [discriminate|].
  destruct (String.eqb_spec s "m") as [->|_]; [discriminate|].
  destruct (String.eqb_spec s "y") as [->|_]; [discriminate|].
  reflexivity.
Qed.

(** X8: only the empty line stands for the default.  A line that is not
    empty and holds nothing but white space is an invalid answer: the
    choice loop reports "Bad index" and the loop of a boolean or
    tri-state symbol reports "Invalid tristate value"; both ask again in
    the same state. *)
Theorem white_space_is_not_a_blank_line
  (line : string) (rest : list string) (st : St) (tr : list event) :
  all_space line = true ->
  blank line = false ->
  (forall text filename linenr choice options,
     Forall has_first_prompt options ->
     choice_loop text filename linenr choice options (line :: rest) st tr =
     choice_loop text filename linenr choice options rest st
       ((((tr ++ [EvPrint (choice_header text filename linenr)]) ++
          presented st choice options) ++
         [EvInput (ItemChoice choice) (choice_prompt options)]) ++
        [EvEprint "Bad index"])%list) /\
  (forall text sym,
     is_bool_or_tristate (sym_type_of st sym) = true ->
     symbol_loop text sym (line :: rest) st tr =
     symbol_loop text sym rest st
       ((tr ++ [EvInput (ItemSymbol sym) (symbol_prompt text st sym)]) ++
        [EvEprint "Invalid tristate value"])%list).
Proof.
  intros Hspace Hline. split.
  - intros text filename linenr choice options Hall.
    cbn [choice_loop].
    rewrite (print_options_presents st choice options 1 _ Hall).
    rewrite Hline. change (int line) with (py_int line).
    rewrite (py_int_all_space line Hspace). reflexivity.
  - intros text sym Hty.
    cbn [symbol_loop]. rewrite Hline.
    unfold tristate_lookup.
    rewrite Hty, (STR_TO_TRI_all_space line Hspace). reflexivity.
Qed.

(** *** What reaches the setter *)

Lemma startswith_0x_prefixed (s : string) : startswith_0x ("0x" ++ s) = true.
Proof.
  unfold startswith_0x. cbn [append prefix].
  destruct (ascii_dec "0" "0") as [_|Hneq]; [|now exfalso].
  destruct (ascii_dec "x" "x") as [_|Hneq]; [|now exfalso].
  destruct s; reflexivity.
Qed.

(** X9: the value the symbol loop hands to the setter has the shape of
    the symbol's type: a level 0, 1 or 2 for a boolean or tri-state
    symbol, a string that starts with "0x" or "0X" for a hexadecimal
    symbol, and the line itself (or the current value, for a blank line)
    for the other types.  The hex prefix is added once: a value that
    went through it is left as it is by a second pass. *)
Theorem setter_argument_has_the_shape_of_the_type
  (st : St) (sym : Symbol) (line : string) (v : value) :
  symbol_candidate st sym line = Some v ->
  (is_bool_or_tristate (sym_type_of st sym) = true ->
   exists t, v = VTri t /\ (0 <= t <= 2)%Z) /\
  (sym_type_of st sym = HEX ->
   exists s, v = VStr s /\ startswith_0x s = true) /\
  (is_bool_or_tristate (sym_type_of st sym) = false ->
   sym_type_of st sym <> HEX ->
   v = VStr (if blank line then sym_str_value st sym else line)) /\
  hex_prefix (sym_type_of st sym) v = v.
Proof.
  unfold symbol_candidate, tristate_lookup.
  set (val := if blank line then sym_str_value st sym else line).
  destruct (sym_type_of st sym) eqn:Hty;
    cbn [is_bool_or_tristate sym_type_eqb orb option_map hex_prefix].
  1,4,5: intros [= <-]; repeat split; try discriminate; try congruence;
    reflexivity.
  1,2: destruct (STR_TO_TRI val) as [t|] eqn:Htable;
    cbn [option_map]; [|discriminate]; intros [= <-];
    (split; [|repeat split; try discriminate; reflexivity]);
    intros _; exists t; (split; [reflexivity|]);
    apply STR_TO_TRI_table in Htable;
    destruct Htable as [[_ ->]|[[_ ->]|[_ ->]]]; lia.
  intros [= <-].
  split; [discriminate|].
  destruct (startswith_0x val) eqn:Hprefix.
  - split; [intros _; exists val; auto|].
    split; [congruence|]. now rewrite Hprefix.
  - split; [intros _; exists ("0x" ++ val);
            split; [reflexivity|apply startswith_0x_prefixed]|].
    split; [congruence|].
    change (String "0" (String "x" val)) with ("0x" ++ val).
    now rewrite startswith_0x_prefixed.
Qed.

(** *** The hint of a boolean or tri-state symbol *)

(** X10: the hint [default_value_str] builds for a boolean or tri-state
    symbol names the assignable levels among 0, 1 and 2, each once, in
    the order n, m, y, whatever the order and the repetitions in
    [sym.assignable]; the letter of the symbol's current level is the
    only capital, and there is none when the current level is not
    assignable. *)
Theorem hint_names_the_assignable_levels (st : St) (sym : Symbol) :
  is_bool_or_tristate (sym_type_of st sym) = true ->
  default_value_str st sym =
  String.concat "/"
    (map (hint_letter (sym_tri_value st sym))
         (filter (is_assignable st sym) [0; 1; 2]%Z)) /\
  capitals (default_value_str st sym) =
  if is_assignable st sym (sym_tri_value st sym) &&
     (0 <=? sym_tri_value st sym)%Z && (sym_tri_value st sym <=? 2)%Z
  then 1%nat else 0%nat.
Proof.
  intros Hty. unfold default_value_str. rewrite Hty.
  cbn [filter map].
  generalize (sym_tri_value st sym). intros current.
  split.
  - destruct (is_assignable st sym 0), (is_assignable st sym 1),
      (is_assignable st sym 2); reflexivity.
  - destruct (Z.eqb_spec current 0) as [->|H0].
    { destruct (is_assignable st sym 0), (is_assignable st sym 1),
        (is_assignable st sym 2); reflexivity. }
    destruct (Z.eqb_spec current 1) as [->|H1].
    { destruct (is_assignable st sym 0), (is_assignable st sym 1),
        (is_assignable st sym 2); reflexivity. }
    destruct (Z.eqb_spec current 2) as [->|H2].
    { destruct (is_assignable st sym 0), (is_assignable st sym 1),
        (is_assignable st sym 2); reflexivity. }
    replace (is_assignable st sym current && (0 <=? current)%Z &&
             (current <=? 2)%Z) with false.
    { destruct (is_assignable st sym 0), (is_assignable st sym 1),
        (is_assignable st sym 2); reflexivity. }
    symmetry. rewrite <- andb_assoc. apply andb_false_intro2.
    apply andb_false_iff.
    destruct (Z.leb_spec 0 current); [|auto].
    destruct (Z.leb_spec current 2); [lia|auto].
Qed.

End AsciiLines.

(** ** The main block *)

Section MainBlock.

Context {St : Type} `{B : Builtins} `{K : Kconfiglib St} `{H : Host St}.

Lemma main_reaches_the_walk (argv lines : list string) (st0 st1 : St)
  (top_node : MenuNode) :
  List.length argv = 2%nat ->
  path_exists ".config" = true ->
  Kconfig_new (nth 1 argv "") = Some (st0, top_node) ->
  load_config ".config" st0 = Some st1 ->
  main argv lines =
  match do_oldconfig top_node (mkWorld st1 lines []) with
  | Raised e w => WalkRaised e w
  | Done w =>
      if write_config ".config" (kst w) then
        Written ".config" (kst w)
          (mkWorld (kst w) (stdin w)
             (trace w ++ [EvPrint "Configuration written to .config"])%list)
      else LibraryRaised (trace w)
  end.
Proof.
  intros Hargv Hexists Hnew Hload. unfold main.
  rewrite Hargv, Hexists, Hnew, Hload. reflexivity.
Qed.

Lemma main_written (argv lines : list string) (filename : string)
  (saved : St) (w : world St) :
  main argv lines = Written filename saved w ->
  exists st0 top_node st1 w1,
    List.length argv = 2%nat /\
    path_exists ".config" = true /\
    Kconfig_new (nth 1 argv "") = Some (st0, top_node) /\
    load_config ".config" st0 = Some st1 /\
    do_oldconfig top_node (mkWorld st1 lines []) = Done w1 /\
    write_config ".config" (kst w1) = true /\
    filename = ".config" /\ saved = kst w1 /\
    w = mkWorld (kst w1) (stdin w1)
          (trace w1 ++ [EvPrint "Configuration written to .config"])%list.
Proof.
  unfold main.
  destruct (List.length argv =? 2)%nat eqn:Hargv; [|discriminate].
  destruct (path_exists ".config") eqn:Hexists; [|discriminate].
  destruct (Kconfig_new (nth 1 argv "")) as [[st0 top_node]|] eqn:Hnew;
    [|discriminate].
  destruct (load_config ".config" st0) as [st1|] eqn:Hload; [|discriminate].
  destruct (do_oldconfig top_node (mkWorld st1 lines [])) as [w1|e w1]
    eqn:Hwalk; [|discriminate].
  destruct (write_config ".config" (kst w1)) eqn:Hwrite; [|discriminate].
  cbn [negb]. intros [= <- <- <-].
  exists st0, top_node, st1, w1.
  apply Nat.eqb_eq in Hargv. repeat split; auto.
Qed.

(** X11: the configuration is written once, at the end, and only after
    a walk that completed.  When a run ends past [write_config], the
    argument count was right, [.config] existed, the Kconfig file and
    the saved configuration were loaded, the walk over the top node
    returned, what was written to [.config] is the state in which the
    walk ended, the last line printed is the confirmation, and every
    property that the setter keeps and that held of the loaded
    configuration holds of the written one. *)
Theorem config_is_written_after_a_completed_walk
  (argv lines : list string) (filename : string) (saved : St)
  (w : world St) :
  main argv lines = Written filename saved w ->
  filename = ".config" /\
  List.length argv = 2%nat /\
  path_exists ".config" = true /\
  exists st0 top_node st1 w1,
    Kconfig_new (nth 1 argv "") = Some (st0, top_node) /\
    load_config ".config" st0 = Some st1 /\
    do_oldconfig top_node (mkWorld st1 lines []) = Done w1 /\
    saved = kst w1 /\ kst w = saved /\ stdin w = stdin w1 /\
    trace w = (trace w1 ++ [EvPrint "Configuration written to .config"])%list
    /\
    forall P : St -> Prop,
      (forall sym v st, P st -> P (snd (sym_set_value sym v st))) ->
      P st1 -> P saved.
Proof.
  intros Hmain.
  destruct (main_written _ _ _ _ _ Hmain)
    as (st0 & top_node & st1 & w1 & Hargv & Hexists & Hnew & Hload & Hwalk
        & Hwrite & -> & -> & ->).
  repeat split; auto.
  exists st0, top_node, st1, w1. repeat split; auto.
  intros P Hkept HP.
  pose proof (walk_keeps P Hkept top_node (mkWorld st1 lines []) HP) as Hfinal.
  now rewrite Hwalk in Hfinal.
Qed.

Lemma walk_accounted (tree : MenuNode) (w : world St) :
  accounted w (do_oldconfig tree w).
Proof.
  revert w.
  induction tree as [|item prompt filename linenr children IHc next IHn];
    intros w; cbn [do_oldconfig]; [apply accounted_refl|].
  apply accounted_bind; [apply node_accounted|].
  intros w1 _.
  apply accounted_bind; [|intros w2 _; apply IHn].
  destruct children; [apply accounted_refl|apply IHc].
Qed.

(** X12: a run whose input ends too early writes nothing.  In a
    configuration where every selectable option has a first prompt and
    a choice with selectable options has a selection, a run that the walk
    aborts was aborted by [EOFError]: every line of the input was read,
    one prompt more than there were lines was written, and
    [write_config] was not reached. *)
Theorem early_end_of_input_writes_nothing
  (argv lines : list string) (e : exn) (w' : world St) :
  selection_present -> options_have_prompts ->
  main argv lines = WalkRaised e w' ->
  e = EOFError /\ stdin w' = [] /\
  input_count (trace w') = S (List.length lines) /\
  forall filename saved w, main argv lines <> Written filename saved w.
Proof.
  intros Hsel Hprompts Hmain.
  assert (Hwalk : exists top_node st1,
    do_oldconfig top_node (mkWorld st1 lines []) = Raised e w').
  { unfold main in Hmain.
    destruct (negb (List.length argv =? 2)%nat); [discriminate|].
    destruct (negb (path_exists ".config")); [discriminate|].
    destruct (Kconfig_new (nth 1 argv "")) as [[st0 top_node]|];
      [|discriminate].
    destruct (load_config ".config" st0) as [st1|]; [|discriminate].
    exists top_node, st1.
    destruct (do_oldconfig top_node (mkWorld st1 lines [])) as [w1|e1 w1].
    - destruct (write_config ".config" (kst w1)); discriminate.
    - now injection Hmain as <- <-. }
  destruct Hwalk as (top_node & st1 & Hwalk).
  destruct (walk_raises _ _ _ _ Hsel Hprompts Hwalk) as [-> Hstdin].
  split; [reflexivity|]. split; [exact Hstdin|]. split.
  - destruct (walk_accounted top_node (mkWorld st1 lines []))
      as (used & Hused & Hcount).
    rewrite Hwalk in Hused, Hcount.
    cbn [final stdin trace eof_prompt] in Hused, Hcount.
    rewrite Hstdin, app_nil_r in Hused. subst used.
    rewrite Hcount. unfold input_count. simpl. lia.
  - intros filename saved w Hwritten. congruence.
Qed.

(** X13: when everything is up to date, a run asks nothing.  If every
    node of the tree is skippable in the loaded configuration, the run
    reads no line, prints the confirmation and nothing else, and writes
    the configuration it loaded. *)
Theorem up_to_date_run_asks_nothing
  (argv lines : list string) (st0 st1 : St) (top_node : MenuNode) :
  List.length argv = 2%nat ->
  path_exists ".config" = true ->
  Kconfig_new (nth 1 argv "") = Some (st0, top_node) ->
  load_config ".config" st0 = Some st1 ->
  write_config ".config" st1 = true ->
  Forall (skippable st1) (preorder top_node) ->
  main argv lines =
  Written ".config" st1
    (mkWorld st1 lines [EvPrint "Configuration written to .config"]).
Proof.
  intros Hargv Hexists Hnew Hload Hwrite Hall.
  rewrite (main_reaches_the_walk argv lines st0 st1 top_node
             Hargv Hexists Hnew Hload).
  rewrite (skippable_walk top_node (mkWorld st1 lines []) Hall).
  cbn [kst stdin trace]. rewrite Hwrite. reflexivity.
Qed.

End MainBlock.

(** ** The further properties at the sample *)

Lemma tab_rejection_is_silent (k : Tab.Kconf) :
  rejection_is_silent (K := Tab.model k).
Proof.
  intros st sym v. simpl. unfold Tab.set_value.
  destruct (Tab.valid_for _ v); [discriminate|reflexivity].
Qed.

Lemma sample_options_display :
  Forall (has_first_prompt (K := sample)) [6; 7; 8]%nat.
Proof.
  apply Forall_forall. intros sym Hin.
  apply (sample_options_have_prompts Sample.empty 0%nat). exact Hin.
Qed.

(** Nothing is ever stored for a symbol that is not declared. *)
Lemma setter_invariant_witness :
  Tab.lookup 9
    (Tab.user_values (kst (final (Sample.run Sample.session_input))))
  = None.
Proof.
  apply (walk_keeps_setter_invariants (B := ascii_builtins)
           (K := sample)
           (fun st => Tab.lookup 9 (Tab.user_values st) = None)
           Sample.top_node (mkWorld Sample.empty Sample.session_input [])).
  - intros sym v st HP.
    destruct (Nat.eq_dec 9 sym) as [<-|Hneq].
    + destruct v; exact HP.
    + rewrite <- HP. now apply (tab_frames_user_values Sample.kconf).
  - reflexivity.
Defined.

(** INT_SYM: "abc" and the blank line are rejected, "42" is taken, the
    line after it is not read. *)
Lemma first_accepted_witness :
  exists tr',
    symbol_loop (K := sample) "INT_SYM prompt" 4
      (["abc"; ""] ++ "42" :: ["y"]) Sample.empty [] =
    Done (mkWorld
            (snd (sym_set_value (Kconfiglib := sample) 4%nat (VStr "42")
                    Sample.empty))
            ["y"] tr') /\
    prompts_for (ItemSymbol 4) tr' =
    (prompts_for (ItemSymbol 4) [] + List.length ["abc"; ""] + 1)%nat.
Proof.
  apply (proj1 (symbol_loop_ends_at_first_accepted (K := sample)
                  "INT_SYM prompt" 4 ["abc"; ""] Sample.empty []
                  (tab_rejection_is_silent Sample.kconf)
                  ltac:(repeat constructor))
           "42" ["y"] (VStr "42") eq_refl eq_refl).
Defined.

(** The choice: "5", "x" and " " are passed over. *)
Lemma bad_lines_witness :
  exists tr',
    choice_loop (K := sample) "A choice that defaults to CHOICE_B" "Kconfig"
      23 0 [6; 7; 8]%nat (["5"; "x"; " "] ++ ["2"]) Sample.empty [] =
    choice_loop (K := sample) "A choice that defaults to CHOICE_B" "Kconfig"
      23 0 [6; 7; 8]%nat ["2"] Sample.empty tr' /\
    report_count "Bad index" tr' =
    (report_count "Bad index" [] + List.length ["5"; "x"; " "])%nat /\
    input_count tr' = (input_count [] + List.length ["5"; "x"; " "])%nat.
Proof.
  apply (choice_loop_passes_over_bad_lines (B := ascii_builtins)
           (K := sample)
           "A choice that defaults to CHOICE_B" "Kconfig" 23 0
           [6; 7; 8]%nat ["5"; "x"; " "] ["2"] Sample.empty []
           sample_options_display).
  repeat constructor.
Defined.

(** The third line of the choice shows 3, and "3" picks CHOICE_C. *)
Lemma displayed_number_witness :
  nth_error (presented (K := sample) Sample.empty 0 [6; 7; 8]%nat) 2 =
  Some (EvPrint "  3. CHOICE_C's prompt (CHOICE_C)") /\
  exists tr',
    choice_loop (K := sample) "A choice that defaults to CHOICE_B" "Kconfig"
      23 0 [6; 7; 8]%nat ["3"; "y"] Sample.empty [] =
    Done (mkWorld
            (snd (sym_set_value (Kconfiglib := sample) 8%nat (VTri 2)
                    Sample.empty))
            ["y"] tr').
Proof.
  exact (displayed_number_selects_its_option (K := sample)
           "A choice that defaults to CHOICE_B" "Kconfig" 23 0
           [6; 7; 8]%nat 2 8%nat ["y"] Sample.empty []
           sample_options_display eq_refl).
Defined.

(** A line with one space at the prompt of BOOL_SYM. *)
Lemma white_space_witness :
  symbol_loop (K := sample) "BOOL_SYM prompt" 1 [" "; "y"] Sample.empty [] =
  symbol_loop (K := sample) "BOOL_SYM prompt" 1 ["y"] Sample.empty
    (([] ++ [EvInput (ItemSymbol 1)
               (symbol_prompt (K := sample) "BOOL_SYM prompt"
                  Sample.empty 1)]) ++
     [EvEprint "Invalid tristate value"])%list.
Proof.
  apply (proj2 (white_space_is_not_a_blank_line (K := sample) " " ["y"]
                  Sample.empty [] eq_refl eq_refl)).
  reflexivity.
Defined.

(** HEX_SYM: "123" reaches the setter as "0x123". *)
Lemma setter_argument_witness :
  exists s, VStr "0x123" = VStr s /\ startswith_0x s = true.
Proof.
  apply (proj1 (proj2 (setter_argument_has_the_shape_of_the_type
                         (K := sample) Sample.empty 5%nat "123"
                         (VStr "0x123") eq_refl))).
  reflexivity.
Defined.

(** BOOL_SYM with nothing set: the hint of the header. *)
Lemma hint_witness :
  default_value_str (K := sample) Sample.empty 1 = "n/Y" /\
  capitals (default_value_str (K := sample) Sample.empty 1) = 1%nat.
Proof.
  exact (hint_names_the_assignable_levels (K := sample) Sample.empty 1%nat
           eq_refl).
Defined.

(** The second run of the header ends past [write_config]. *)
Lemma written_config_witness :
  SampleRun.run SampleRun.written_config [] =
  Written ".config"
    (Tab.load_config Sample.kconf SampleRun.written_config Sample.empty)
    (mkWorld
       (Tab.load_config Sample.kconf SampleRun.written_config Sample.empty)
       [] [EvPrint "Configuration written to .config"]) /\
  ".config" = ".config" /\
  List.length ["oldconfig.py"; "Kconfig"] = 2%nat.
Proof.
  split; [reflexivity|].
  destruct (config_is_written_after_a_completed_walk (B := ascii_builtins)
           (K := sample)
              (H := SampleRun.host SampleRun.written_config)
              ["oldconfig.py"; "Kconfig"] [] ".config"
              (Tab.load_config Sample.kconf SampleRun.written_config
                 Sample.empty)
              (mkWorld
                 (Tab.load_config Sample.kconf SampleRun.written_config
                    Sample.empty)
                 [] [EvPrint "Configuration written to .config"])
              eq_refl) as (Hname & Hargv & _).
  split; assumption.
Defined.

(** The first run of the header on an input of one line. *)
Lemma early_end_witness :
  EOFError = EOFError /\
  stdin (mkWorld Sample.empty []
           [ EvInput (ItemSymbol 1)
               "BOOL_SYM prompt (BOOL_SYM, defined at Kconfig:5) [n/Y] ";
             EvEprint "Invalid tristate value";
             EvInput (ItemSymbol 1)
               "BOOL_SYM prompt (BOOL_SYM, defined at Kconfig:5) [n/Y] " ])
  = [] /\
  input_count
    [ EvInput (ItemSymbol 1)
        "BOOL_SYM prompt (BOOL_SYM, defined at Kconfig:5) [n/Y] ";
      EvEprint "Invalid tristate value";
      EvInput (ItemSymbol 1)
        "BOOL_SYM prompt (BOOL_SYM, defined at Kconfig:5) [n/Y] " ]
  = S (List.length ["foo"]).
Proof.
  destruct (early_end_of_input_writes_nothing (B := ascii_builtins)
           (K := sample)
              (H := SampleRun.host []) ["oldconfig.py"; "Kconfig"] ["foo"]
              EOFError
              (mkWorld Sample.empty []
                 [ EvInput (ItemSymbol 1)
                     "BOOL_SYM prompt (BOOL_SYM, defined at Kconfig:5) [n/Y] ";
                   EvEprint "Invalid tristate value";
                   EvInput (ItemSymbol 1)
                     "BOOL_SYM prompt (BOOL_SYM, defined at Kconfig:5) [n/Y] " ])
              sample_selection_present sample_options_have_prompts eq_refl)
    as (He & Hstdin & Hcount & _).
  repeat split; assumption.
Defined.

(** The second run of the header: "everything's already up to date". *)
Lemma up_to_date_witness :
  SampleRun.run SampleRun.written_config ["y"] =
  Written ".config"
    (Tab.load_config Sample.kconf SampleRun.written_config Sample.empty)
    (mkWorld
       (Tab.load_config Sample.kconf SampleRun.written_config Sample.empty)
       ["y"] [EvPrint "Configuration written to .config"]).
Proof.
  apply (up_to_date_run_asks_nothing (B := ascii_builtins)
           (K := sample)
           (H := SampleRun.host SampleRun.written_config)
           ["oldconfig.py"; "Kconfig"] ["y"] Sample.empty
           (Tab.load_config Sample.kconf SampleRun.written_config
              Sample.empty)
           Sample.top_node eq_refl eq_refl eq_refl eq_refl eq_refl).
  apply (quiet_walk (B := ascii_builtins)
           (K := sample) Sample.top_node
           (mkWorld
              (Tab.load_config Sample.kconf SampleRun.written_config
                 Sample.empty) [] [])).
  reflexivity.
Defined.

